(** * The paginated message counter of [utils/count_messages.py]

    A shallow embedding of [find_actual_start_near_end],
    [count_all_messages], [count_messages_in_channel] and [main], and the
    properties the specification states about them.

    Timetokens are Python integers ([int(msg.timetoken)]), modelled as [Z].
    A message is represented by its timetoken: nothing else of a message
    is read by the counter.  Optional arguments ([None] by default) are
    [option Z]; the source tests them by truthiness, so [None] and [0]
    are both "absent" wherever a bound is tested.

    The message store is an external collaborator: it is a state type
    with a function answering one [fetch_messages(...).sync()] call.  The
    calls made and the console lines that matter here are recorded, in
    order, in a trace. *)

From Stdlib Require Import ZArith List Bool Lia Sorted.
Import ListNotations.

Local Open Scope Z_scope.

(** ** Requests, responses, events *)

(** The keyword arguments of [pubnub.fetch_messages]: [channels] is always
    the one channel, [include_meta] and [include_uuid] are always [False];
    the [start] and [end] keys may be missing. *)
Record request : Type := Request {
  req_start : option Z;
  req_end : option Z;
  req_count : Z
}.

(** The two [except] clauses of the counting loop. *)
Inductive exn : Type :=
| PubNubException
| OtherException.

(** What one [.sync()] call does: it raises, or it returns an envelope
    whose status is an error, or an envelope whose [result.channels] maps
    the channel to its messages (or does not contain the channel). *)
Inductive response : Type :=
| Raises (e : exn)
| Envelope_error
| Envelope (channel_messages : option (list Z)).

(** Console lines kept in the trace (the other [print] calls are
    progress output and are left out). *)
Inductive console_line : Type :=
| Finding_range            (* "Finding actual message range near end timetoken..." *)
| Counting_all             (* "Counting all messages in channel (no time filtering)..." *)
| Start_must_be_less       (* "Error: Start timetoken must be less than end timetoken" *)
| Total_message_count (n : nat).  (* "TOTAL MESSAGE COUNT: n" *)

Inductive event : Type :=
| Fetch (req : request) (resp : response)
| Printed (line : console_line).

(** A function of the script either returns a value, or raises, or the
    model ran out of fuel before the function finished. *)
Inductive outcome : Type :=
| Returns (n : nat)
| Raised (e : exn)
| Out_of_fuel.

(** ** Python helpers *)

(** [if x:] for an optional integer: [None] and [0] are falsy. *)
Definition truthy (x : option Z) : bool :=
  match x with
  | Some v => negb (v =? 0)
  | None => false
  end.

(** [x and p(x)] as a condition. *)
Definition when (x : option Z) (p : Z -> bool) : bool :=
  match x with
  | Some v => negb (v =? 0) && p v
  | None => false
  end.

(** [max(l)] and [min(l)].  On an empty list Python raises [ValueError];
    every use in the source is guarded by a non-emptiness test, and the
    value chosen here for the empty list is never used. *)
Definition py_max (l : list Z) : Z :=
  match l with
  | [] => 0
  | x :: xs => fold_left Z.max xs x
  end.

Definition py_min (l : list Z) : Z :=
  match l with
  | [] => 0
  | x :: xs => fold_left Z.min xs x
  end.

Definition nonempty {A : Type} (l : list A) : bool :=
  match l with
  | [] => false
  | _ :: _ => true
  end.

(** ** The counter *)

(** The local variables of [count_messages_in_channel] that change in the
    loop ([original_start] is [start_timetoken] throughout, and
    [count_all_messages_mode] is never read). *)
Record loop_vars : Type := Loop_vars {
  total_count : nat;
  current_start : option Z;
  first_iteration : bool;
  previous_oldest_timetoken : option Z;
  api_ignoring_start : bool
}.

Definition initial_vars (start_timetoken : option Z) : loop_vars :=
  {| total_count := 0;
     current_start := start_timetoken;
     first_iteration := true;
     previous_oldest_timetoken := None;
     api_ignoring_start := false |}.

(** Lines 150-164: the parameters of the fetch of one iteration. *)
Definition fetch_params (end_timetoken : option Z) (v : loop_vars) : request :=
  {| req_start := if truthy (current_start v) then current_start v else None;
     req_end :=
       if truthy end_timetoken
          && negb (api_ignoring_start v
                   && when end_timetoken (fun e => e >? 18000000000000000))
       then end_timetoken else None;
     req_count := 100 |}.

(** Lines 184-189: on the first iteration, the start was ignored by the
    store when the oldest message is more than [10**14] above it. *)
Definition start_ignored (v : loop_vars) (raw_messages : list Z) : bool :=
  first_iteration v
  && when (current_start v)
       (fun cs => (0 <? length raw_messages)%nat
                  && (cs <? py_min raw_messages - 10 ^ 14)).

(** Lines 212-229: the filter applied to one message. *)
Definition should_include (ignoring : bool)
    (original_start start_timetoken end_timetoken : option Z)
    (msg_timetoken : Z) : bool :=
  negb (if ignoring
        then when original_start (fun s => msg_timetoken <=? s)
        else when start_timetoken (fun s => msg_timetoken <=? s))
  && negb (when end_timetoken (fun e => msg_timetoken >? e)).

(** What one iteration of [while True] decides once the fetch is done. *)
Inductive control : Type :=
| Break (total : nat)              (* [break], then [return total_count] *)
| Continue (v : loop_vars)         (* next iteration *)
| Return_count_all                 (* [return count_all_messages(...)] *)
| Return_find_actual_start.        (* [return find_actual_start_near_end(...)] *)

(** Lines 171-333, the body of the loop after the fetch. *)
Definition loop_body (start_timetoken end_timetoken : option Z)
    (v : loop_vars) (resp : response) : control :=
  let original_start := start_timetoken in
  match resp with
  | Raises _ => Break (total_count v)
  | Envelope_error => Break (total_count v)
  | Envelope None => Break (total_count v)
  | Envelope (Some raw_messages) =>
    let raw_count := length raw_messages in
    let raw_newest := py_max raw_messages in
    let raw_oldest := py_min raw_messages in
    let ignored := start_ignored v raw_messages in
    if ignored && when end_timetoken (fun e => e >? raw_newest + 10 ^ 15)
    then Return_count_all
    else if ignored && truthy end_timetoken
    then Return_find_actual_start
    else
      let ignoring := if ignored then true else api_ignoring_start v in
      let filtered_messages :=
        filter (should_include ignoring original_start start_timetoken
                  end_timetoken) raw_messages in
      let batch_count := length filtered_messages in
      let total := (total_count v + batch_count)%nat in
      (* lines 254-265 *)
      if (0 <? raw_count)%nat
         && when end_timetoken (fun e => raw_newest >? e)
      then Break total
      else if (0 <? raw_count)%nat
              && when end_timetoken
                   (fun e => truthy (current_start v) && (raw_newest >=? e))
      then Break total
      (* lines 268-276 *)
      else if (batch_count =? 0)%nat && (raw_count =? 0)%nat
      then Break total
      else if (batch_count =? 0)%nat && (raw_count <? 100)%nat
      then Break total
      (* lines 279-281 *)
      else if (raw_count <? 100)%nat
      then Break total
      (* lines 285-289 *)
      else if when end_timetoken
                (fun e => (0 <? raw_count)%nat && (raw_oldest >? e))
      then Break total
      (* lines 292-296 *)
      else if ignoring
              && when end_timetoken
                   (fun e => (0 <? raw_count)%nat && (raw_newest >? e)
                             && (batch_count =? 0)%nat)
      then Break total
      else
        (* lines 299-302 *)
        let oldest_timetoken :=
          if nonempty filtered_messages
          then py_min filtered_messages
          else py_min raw_messages in
        (* lines 305-314: both branches break *)
        if when (previous_oldest_timetoken v)
             (fun p => oldest_timetoken >=? p)
        then Break total
        (* lines 324-326 *)
        else if when end_timetoken (fun e => oldest_timetoken >? e)
        then Break total
        else Continue {| total_count := total;
                         current_start := Some oldest_timetoken;
                         first_iteration := false;
                         previous_oldest_timetoken := Some oldest_timetoken;
                         api_ignoring_start := ignoring |}
  end.

(** Lines 43-49. *)
Definition search_ranges : list Z :=
  [2 * 10 ^ 7; 5 * 10 ^ 7; 10 ^ 8; 10 ^ 9; 10 ^ 10].

(** Lines 54-67: the parameters of the fetch for one range size. *)
Definition search_params (original_start end_timetoken range_size : Z)
    : request :=
  let test_start := end_timetoken - range_size in
  let test_start :=
    if test_start <? original_start then original_start else test_start in
  {| req_start := Some test_start;
     req_end := Some end_timetoken;
     req_count := 100 |}.

(** Lines 84-89: the messages of a batch that increment [count]. *)
Definition match_criteria (original_start end_timetoken : Z)
    (msg_timetoken : Z) : bool :=
  (msg_timetoken >? original_start) && (msg_timetoken <=? end_timetoken).

Section Counter.

(** The store: its state, and what one call returns. *)
Context {St : Type}.
Variable sync : St -> request -> response * St.

Record World : Type := Build_World {
  store : St;
  trace : list event
}.

Definition print (line : console_line) (w : World) : World :=
  {| store := store w; trace := trace w ++ [Printed line] |}.

(** The call [pubnub.fetch_messages(...).sync()] with the given keyword
    arguments. *)
Definition fetch_messages (req : request) (w : World) : response * World :=
  let (resp, s) := sync (store w) req in
  (resp, {| store := s; trace := trace w ++ [Fetch req resp] |}).

(** Lines 53-104: the [for range_size in search_ranges] loop. *)
Fixpoint search (ranges : list Z) (original_start end_timetoken : Z)
    (w : World) : outcome * World :=
  match ranges with
  | [] => (Returns 0, w)
  | range_size :: rest =>
    let (resp, w1) :=
      fetch_messages (search_params original_start end_timetoken range_size) w
    in
    match resp with
    | Raises e => (Raised e, w1)
    | Envelope_error => search rest original_start end_timetoken w1
    | Envelope None => search rest original_start end_timetoken w1
    | Envelope (Some raw_messages) =>
      if (0 <? length raw_messages)%nat
      then (Returns
              (length (filter (match_criteria original_start end_timetoken)
                         raw_messages)), w1)
      else search rest original_start end_timetoken w1
    end
  end.

Definition find_actual_start_near_end (original_start end_timetoken : Z)
    (w : World) : outcome * World :=
  search search_ranges original_start end_timetoken (print Finding_range w).

(** Lines 146-335: [while True].  One unit of fuel is used by each
    iteration and by the call of [count_all_messages], which runs the
    same loop from its initial variables with both bounds [None].  An
    exception raised inside [find_actual_start_near_end] is caught by the
    [except] clauses of the loop, which break and return [total_count];
    so is the [TypeError] raised there when a bound is [None]. *)
Fixpoint loop (fuel : nat) (start_timetoken end_timetoken : option Z)
    (v : loop_vars) (w : World) : outcome * World :=
  match fuel with
  | O => (Out_of_fuel, w)
  | S fuel' =>
    let (resp, w1) := fetch_messages (fetch_params end_timetoken v) w in
    match loop_body start_timetoken end_timetoken v resp with
    | Break total => (Returns total, w1)
    | Continue v' => loop fuel' start_timetoken end_timetoken v' w1
    | Return_count_all =>
      (* [count_all_messages]: its line is printed, then
         [count_messages_in_channel(pubnub, channel, None, None)] runs *)
      loop fuel' None None (initial_vars None) (print Counting_all w1)
    | Return_find_actual_start =>
      match start_timetoken, end_timetoken with
      | Some original_start, Some e =>
        match find_actual_start_near_end original_start e w1 with
        | (Raised _, w2) => (Returns (total_count v), w2)
        | r => r
        end
      | _, _ => (Returns (total_count v), w1)
      end
    end
  end.

Definition count_messages_in_channel (fuel : nat)
    (start_timetoken end_timetoken : option Z) (w : World)
    : outcome * World :=
  loop fuel start_timetoken end_timetoken (initial_vars start_timetoken) w.

(** Lines 107-113. *)
Definition count_all_messages (fuel : nat) (w : World) : outcome * World :=
  count_messages_in_channel fuel None None (print Counting_all w).

(** Line 388. *)
Definition invalid_range (start end_ : option Z) : bool :=
  when start (fun s => when end_ (fun e => s >=? e)).

(** Lines 385-416, with the parsed [--start] and [--end] as arguments.
    The value returned is the exit status of the process.  Creating and
    stopping the client make no store call and are left out. *)
Definition main (fuel : nat) (start end_ : option Z) (w : World)
    : outcome * World :=
  if invalid_range start end_
  then (Returns 1, print Start_must_be_less w)
  else
    match count_messages_in_channel fuel start end_ w with
    | (Returns message_count, w') =>
      (Returns 0, print (Total_message_count message_count) w')
    | (Raised _, w') => (Returns 1, w')      (* "Fatal error", [sys.exit(1)] *)
    | (Out_of_fuel, w') => (Out_of_fuel, w')
    end.

End Counter.

Arguments World St : clear implicits.
Arguments Build_World {St} store trace.

(** On its first iteration the loop still has the caller's start as its
    cursor and has counted nothing. *)
Definition vars_ok (start_timetoken : option Z) (v : loop_vars) : Prop :=
  first_iteration v = true ->
  current_start v = start_timetoken /\ total_count v = 0%nat.

(** ** Reading a trace *)

(** The messages of a response, if it carries any. *)
Definition batch_of (resp : response) : list Z :=
  match resp with
  | Envelope (Some raw_messages) => raw_messages
  | _ => []
  end.

(** All the messages the store returned, in order. *)
Definition messages_fetched (evs : list event) : list Z :=
  flat_map
    (fun ev => match ev with Fetch _ resp => batch_of resp | Printed _ => [] end)
    evs.

(** The requests sent to the store, in order. *)
Definition requests (evs : list event) : list request :=
  flat_map (fun ev => match ev with Fetch req _ => [req] | Printed _ => [] end)
    evs.

(** The start cursors of the requests sent, in order. *)
Definition cursors (evs : list event) : list (option Z) :=
  map req_start (requests evs).

(** The number of times a sub-procedure was entered: each of
    [find_actual_start_near_end] and [count_all_messages] prints its line
    on entry. *)
Definition is_entry (ev : event) : bool :=
  match ev with
  | Printed Finding_range => true
  | Printed Counting_all => true
  | _ => false
  end.

Definition entries (evs : list event) : nat := length (filter is_entry evs).

(** A timetoken is in the caller's range: above [start_timetoken] when
    that is set, and at most [end_timetoken] when that is set. *)
Definition in_range (start_timetoken end_timetoken : option Z) (t : Z) : bool :=
  negb (when start_timetoken (fun s => t <=? s))
  && negb (when end_timetoken (fun e => t >? e)).

(** The timetokens of the messages that a run counts, read off its trace:
    the messages in range of every batch fetched, where entering
    [find_actual_start_near_end] starts the count afresh, and entering
    [count_all_messages] starts it afresh without bounds. *)
Fixpoint counted (start_timetoken end_timetoken : option Z) (acc : list Z)
    (evs : list event) : list Z :=
  match evs with
  | [] => acc
  | Fetch _ (Envelope (Some raw_messages)) :: evs' =>
    counted start_timetoken end_timetoken
      (acc ++ filter (in_range start_timetoken end_timetoken) raw_messages)
      evs'
  | Fetch _ _ :: evs' => counted start_timetoken end_timetoken acc evs'
  | Printed Finding_range :: evs' =>
    counted start_timetoken end_timetoken [] evs'
  | Printed Counting_all :: evs' => counted None None [] evs'
  | Printed _ :: evs' => counted start_timetoken end_timetoken acc evs'
  end.

(** ** A scripted store

    A store that answers the calls it receives with the responses of a
    script, in order, whatever the request, and with an empty batch once
    the script is used up. *)
Definition scripted (script : list response) (req : request)
    : response * list response :=
  match script with
  | [] => (Envelope (Some []), [])
  | resp :: rest => (resp, rest)
  end.

Definition start_world (script : list response) : World (list response) :=
  {| store := script; trace := [] |}.

(** [first .. first + count - 1] as timetokens. *)
Definition tokens_from (first : Z) (count : nat) : list Z :=
  map (fun i => first + Z.of_nat i) (seq 0 count).

(** The scripted store returns positive timetokens when its script has
    only positive ones. *)
Definition positive_script (script : list response) : Prop :=
  Forall (fun resp => Forall (fun t => 0 < t) (batch_of resp)) script.

(** Scripts of the runs examined below. *)

(** The start is ignored (the batch is far above it) and there is no
    end; a full scan would then get three messages. *)
Definition script_ignored_start : list response :=
  [Envelope (Some [2 * 10 ^ 14]); Envelope (Some [1; 2; 3])].

(** The start is ignored and the end is far above the batch; the full
    scan then gets two messages above the end. *)
Definition script_full_scan : list response :=
  [Envelope (Some [2 * 10 ^ 14]); Envelope (Some [3 * 10 ^ 15; 4 * 10 ^ 15])].

(** The start is ignored and the end is not far: the bisection runs, its
    first fetch fails, its second returns two messages. *)
Definition script_bisection_error : list response :=
  [Envelope (Some [2 * 10 ^ 14]); Envelope_error; Envelope (Some [5; 11])].

Definition script_bisection_raise : list response :=
  [Envelope (Some [2 * 10 ^ 14]); Raises PubNubException;
   Envelope (Some [5; 11])].

(** The bisection alone: an empty batch, an error, then three messages. *)
Definition script_probes : list response :=
  [Envelope (Some []); Envelope_error; Envelope (Some [5; 7; 20])].

(** A full batch above the start, then a short batch that repeats three
    of its messages. *)
Definition script_repeat : list response :=
  [Envelope (Some (tokens_from 101 100)); Envelope (Some [150; 160; 170])].

(** Two full batches going down, then a short one. *)
Definition script_pages : list response :=
  [Envelope (Some (tokens_from 201 100));
   Envelope (Some (tokens_from 101 100));
   Envelope (Some [50; 60])].

(** The example of the specification. *)
Definition script_example : list response :=
  [Envelope (Some [150; 160; 201])].

(** ** Kinds of responses *)

(** A fetch failed: the envelope reports a store error, or the call
    raised. *)
Definition is_failure (resp : response) : bool :=
  match resp with
  | Raises _ => true
  | Envelope_error => true
  | Envelope _ => false
  end.

(** A response on which the bisection goes on to its next range: an
    error envelope, or no messages for the channel. *)
Definition is_miss (resp : response) : bool :=
  match resp with
  | Raises _ => false
  | Envelope_error => true
  | Envelope None => true
  | Envelope (Some raw_messages) => negb (nonempty raw_messages)
  end.

Section Probes.

Context {St : Type}.
Variable sync : St -> request -> response * St.

(** [probed os e ranges w resps w'] : fetching with the parameters of the
    bisection for each range size of [ranges] in turn, from [w], gets the
    responses [resps] and ends in [w']. *)
Inductive probed (original_start end_timetoken : Z)
    : list Z -> World St -> list response -> World St -> Prop :=
| probed_nil (w : World St) :
    probed original_start end_timetoken [] w [] w
| probed_cons (range_size : Z) (ranges : list Z) (w w1 w' : World St)
    (resp : response) (resps : list response) :
    fetch_messages sync
      (search_params original_start end_timetoken range_size) w
    = (resp, w1) ->
    probed original_start end_timetoken ranges w1 resps w' ->
    probed original_start end_timetoken (range_size :: ranges) w
      (resp :: resps) w'.

End Probes.

(** The fetch events of the bisection for the given range sizes and
    responses. *)
Definition probe_events (original_start end_timetoken : Z)
    (ranges : list Z) (resps : list response) : list event :=
  map (fun p => Fetch (search_params original_start end_timetoken (fst p))
                  (snd p))
    (combine ranges resps).

(** ** Runs as sequences of events

    The events a run adds to the trace, and its outcome, described
    without the store: each fetch event carries the response that the
    store gave, and the code decides what comes next. *)

(** The events and outcome of the [for] loop of the bisection over the
    given range sizes. *)
Inductive search_events (original_start end_timetoken : Z)
    : list Z -> list event -> outcome -> Prop :=
| search_done :
    search_events original_start end_timetoken [] [] (Returns 0)
| search_raise (range_size : Z) (rest : list Z) (x : exn) :
    search_events original_start end_timetoken (range_size :: rest)
      [Fetch (search_params original_start end_timetoken range_size)
         (Raises x)]
      (Raised x)
| search_hit (range_size : Z) (rest : list Z) (raw_messages : list Z) :
    raw_messages <> [] ->
    search_events original_start end_timetoken (range_size :: rest)
      [Fetch (search_params original_start end_timetoken range_size)
         (Envelope (Some raw_messages))]
      (Returns
         (length (filter (match_criteria original_start end_timetoken)
                    raw_messages)))
| search_miss (range_size : Z) (rest : list Z) (resp : response)
    (evs : list event) (r : outcome) :
    is_miss resp = true ->
    search_events original_start end_timetoken rest evs r ->
    search_events original_start end_timetoken (range_size :: rest)
      (Fetch (search_params original_start end_timetoken range_size) resp
       :: evs)
      r.

(** The events and outcome of the counting loop from given variables. *)
Inductive run_events
    : option Z -> option Z -> loop_vars -> list event -> outcome -> Prop :=
| run_out_of_fuel (s e : option Z) (v : loop_vars) :
    run_events s e v [] Out_of_fuel
| run_break (s e : option Z) (v : loop_vars) (resp : response) (n : nat) :
    loop_body s e v resp = Break n ->
    run_events s e v [Fetch (fetch_params e v) resp] (Returns n)
| run_continue (s e : option Z) (v v' : loop_vars) (resp : response)
    (evs : list event) (r : outcome) :
    loop_body s e v resp = Continue v' ->
    run_events s e v' evs r ->
    run_events s e v (Fetch (fetch_params e v) resp :: evs) r
| run_count_all (s e : option Z) (v : loop_vars) (resp : response)
    (evs : list event) (r : outcome) :
    loop_body s e v resp = Return_count_all ->
    run_events None None (initial_vars None) evs r ->
    run_events s e v
      (Fetch (fetch_params e v) resp :: Printed Counting_all :: evs) r
| run_find (os e' : Z) (v : loop_vars) (resp : response)
    (evs : list event) (r : outcome) :
    loop_body (Some os) (Some e') v resp = Return_find_actual_start ->
    search_events os e' search_ranges evs r ->
    run_events (Some os) (Some e') v
      (Fetch (fetch_params (Some e') v) resp :: Printed Finding_range :: evs)
      (match r with
       | Raised _ => Returns (total_count v)
       | _ => r
       end).

(** The requests of a trace all satisfy a property. *)
Definition all_requests (P : request -> Prop) (evs : list event) : Prop :=
  Forall P (requests evs).

(** ** Properties of the helpers *)

Lemma truthy_when (x : option Z) (p : Z -> bool) :
  when x p = true -> truthy x = true.
Proof.
  destruct x as [z|]; simpl; [|discriminate].
  now intros [H _]%andb_true_iff.
Qed.

Lemma when_some (z : Z) (p : Z -> bool) :
  z <> 0 -> when (Some z) p = p z.
Proof.
  intros Hz. simpl. now apply Z.eqb_neq in Hz as ->.
Qed.

Lemma truthy_some (z : Z) : truthy (Some z) = true <-> z <> 0.
Proof.
  simpl. rewrite negb_true_iff. apply Z.eqb_neq.
Qed.

Lemma fold_min_In (xs : list Z) (x : Z) :
  In (fold_left Z.min xs x) (x :: xs).
Proof.
  revert x. induction xs as [|y ys IH]; intros x; simpl.
  - now left.
  - destruct (IH (Z.min x y)) as [H|H].
    + rewrite <- H.
      destruct (Z.min_spec x y) as [[_ E]|[_ E]]; rewrite E; auto.
    + auto.
Qed.

Lemma py_min_In (l : list Z) : l <> [] -> In (py_min l) l.
Proof.
  destruct l as [|x xs]; [congruence|]. intros _. apply fold_min_In.
Qed.

Lemma nonempty_true {A : Type} (l : list A) : nonempty l = true -> l <> [].
Proof.
  destruct l; [discriminate|congruence].
Qed.

Lemma should_include_in_range (ignoring : bool) (s e : option Z) (t : Z) :
  should_include ignoring s s e t = in_range s e t.
Proof.
  unfold should_include, in_range. now destruct ignoring.
Qed.

Lemma filter_should_include (ignoring : bool) (s e : option Z) (l : list Z) :
  filter (should_include ignoring s s e) l = filter (in_range s e) l.
Proof.
  apply filter_ext. intros t. apply should_include_in_range.
Qed.

Lemma match_criteria_in_range (s e t : Z) :
  s <> 0 -> e <> 0 -> match_criteria s e t = in_range (Some s) (Some e) t.
Proof.
  intros Hs He. unfold match_criteria, in_range.
  rewrite !when_some by assumption.
  destruct (t >? s) eqn:E1, (t <=? s) eqn:E2, (t <=? e) eqn:E3,
    (t >? e) eqn:E4; simpl; try reflexivity; lia.
Qed.

Lemma in_range_start (s : Z) (e : option Z) (t : Z) :
  s <> 0 -> in_range (Some s) e t = true -> s < t.
Proof.
  intros Hs. unfold in_range. rewrite when_some by assumption.
  intros [H _]%andb_true_iff. apply negb_true_iff in H. lia.
Qed.

Lemma in_range_end (s : option Z) (e : Z) (t : Z) :
  e <> 0 -> in_range s (Some e) t = true -> t <= e.
Proof.
  intros He. unfold in_range. rewrite when_some by assumption.
  intros [_ H]%andb_true_iff. apply negb_true_iff in H. lia.
Qed.

Lemma counted_fetch (s e : option Z) (acc : list Z) (req : request)
    (resp : response) (evs : list event) :
  counted s e acc (Fetch req resp :: evs)
  = counted s e (acc ++ filter (in_range s e) (batch_of resp)) evs.
Proof.
  destruct resp as [x| |[raw|]]; simpl; now rewrite ?app_nil_r.
Qed.

(** What one iteration decides, case by case. *)
Lemma loop_body_inv (s e : option Z) (v : loop_vars) (resp : response) :
  match loop_body s e v resp with
  | Break n =>
    n = (total_count v + length (filter (in_range s e) (batch_of resp)))%nat
  | Continue v' =>
    total_count v'
    = (total_count v + length (filter (in_range s e) (batch_of resp)))%nat
    /\ first_iteration v' = false
    /\ exists raw c,
         resp = Envelope (Some raw)
         /\ (100 <= length raw)%nat
         /\ In c raw
         /\ current_start v' = Some c
         /\ previous_oldest_timetoken v' = Some c
         /\ when (previous_oldest_timetoken v) (fun p => c >=? p) = false
  | Return_count_all =>
    start_ignored v (batch_of resp) = true
    /\ when e (fun e' => e' >? py_max (batch_of resp) + 10 ^ 15) = true
  | Return_find_actual_start =>
    start_ignored v (batch_of resp) = true
    /\ truthy e = true
    /\ when e (fun e' => e' >? py_max (batch_of resp) + 10 ^ 15) = false
  end.
Proof.
  unfold loop_body.
  destruct resp as [x| |[raw|]]; simpl batch_of; simpl filter;
    rewrite ?Nat.add_0_r; try reflexivity.
  rewrite filter_should_include.
  repeat match goal with
         | |- context [if ?b then _ else _] =>
           lazymatch b with
           | context [if _ then _ else _] => fail
           | _ => destruct b eqn:?
           end
         end;
    cbn [total_count first_iteration current_start
         previous_oldest_timetoken]; try reflexivity.
  1: now apply andb_true_iff.
  1: { match goal with
       | H : _ && truthy e = true |- _ => apply andb_true_iff in H as [Hi He]
       end.
       repeat split; try assumption.
       match goal with
       | H : _ && when e _ = false |- _ => rewrite Hi in H; exact H
       end. }
  all: assert (Hlen : (100 <= length raw)%nat)
    by (match goal with
        | H : (length _ <? 100)%nat = false |- _ =>
          apply Nat.ltb_ge in H; exact H
        end).
  all: repeat split.
  all: match goal with
       | |- exists raw0 c, _ /\ _ /\ _ /\ Some ?m = _ /\ _ =>
         exists raw, m
       end.
  all: repeat split; try assumption.
  all: match goal with
       | H : nonempty _ = true |- _ =>
         apply nonempty_true, py_min_In, filter_In in H as [H _]; exact H
       | _ => apply py_min_In; intros ->; simpl in Hlen; lia
       end.
Qed.

(** ** Runs and their traces *)

Lemma initial_vars_ok (s : option Z) : vars_ok s (initial_vars s).
Proof.
  intros _. split; reflexivity.
Qed.

Lemma counted_app_fetches (s e : option Z) (acc : list Z) (req : request)
    (resp : response) :
  counted s e acc [Fetch req resp]
  = acc ++ filter (in_range s e) (batch_of resp).
Proof.
  now rewrite counted_fetch.
Qed.

Section Runs.

Context {St : Type}.
Variable sync : St -> request -> response * St.

Lemma fetch_messages_eq (req : request) (w : World St) :
  fetch_messages sync req w
  = (fst (sync (store w) req),
     {| store := snd (sync (store w) req);
        trace := trace w ++ [Fetch req (fst (sync (store w) req))] |}).
Proof.
  unfold fetch_messages. now destruct (sync (store w) req).
Qed.

Lemma fetch_messages_trace (req : request) (w w1 : World St)
    (resp : response) :
  fetch_messages sync req w = (resp, w1) ->
  trace w1 = trace w ++ [Fetch req resp].
Proof.
  rewrite fetch_messages_eq. now intros [= <- <-].
Qed.

(** The bisection: its events are fetches only, it never runs out of
    fuel, and what it returns is the number of messages in range of the
    batches it fetched. *)
Lemma search_run (ranges : list Z) (os e : Z) (w : World St) :
  os <> 0 -> e <> 0 ->
  exists evs,
    trace (snd (search sync ranges os e w)) = trace w ++ evs
    /\ entries evs = 0%nat
    /\ forall acc,
         match fst (search sync ranges os e w) with
         | Returns n =>
           length (counted (Some os) (Some e) acc evs) = (length acc + n)%nat
         | Raised _ => counted (Some os) (Some e) acc evs = acc
         | Out_of_fuel => False
         end.
Proof.
  intros Hos He. revert w.
  induction ranges as [|range_size rest IH]; intros w; simpl.
  - exists []. rewrite app_nil_r. repeat split. intros acc. simpl. lia.
  - destruct (fetch_messages sync (search_params os e range_size) w)
      as [resp w1] eqn:Hf.
    apply fetch_messages_trace in Hf.
    assert (Hmiss : batch_of resp = [] ->
      exists evs,
        trace (snd (search sync rest os e w1)) = trace w ++ evs
        /\ entries evs = 0%nat
        /\ forall acc,
             match fst (search sync rest os e w1) with
             | Returns n =>
               length (counted (Some os) (Some e) acc evs)
               = (length acc + n)%nat
             | Raised _ => counted (Some os) (Some e) acc evs = acc
             | Out_of_fuel => False
             end).
    { intros Hb. destruct (IH w1) as (evs & Ht & Hn & Hc).
      exists (Fetch (search_params os e range_size) resp :: evs).
      split; [|split].
      - rewrite Ht, Hf, <- app_assoc. reflexivity.
      - exact Hn.
      - intros acc. rewrite counted_fetch, Hb. simpl. rewrite app_nil_r.
        apply Hc. }
    destruct resp as [x| |[raw|]]; try (apply Hmiss; reflexivity).
    + exists [Fetch (search_params os e range_size) (Raises x)].
      simpl. repeat split; assumption.
    + destruct raw as [|t raw']; [apply Hmiss; reflexivity|].
      cbn [length Nat.ltb Nat.leb fst snd].
      exists [Fetch (search_params os e range_size) (Envelope (Some (t :: raw')))].
      split; [assumption|]. split; [reflexivity|].
      intros acc. rewrite counted_app_fetches, length_app. cbn [batch_of].
      f_equal. f_equal. apply filter_ext. intros a.
      symmetry. now apply match_criteria_in_range.
Qed.

Lemma start_ignored_inv (v : loop_vars) (raw : list Z) :
  start_ignored v raw = true ->
  first_iteration v = true /\ truthy (current_start v) = true /\ raw <> [].
Proof.
  unfold start_ignored. intros [H1 H2]%andb_true_iff.
  repeat split; try assumption.
  - eapply truthy_when; eassumption.
  - intros ->. destruct (current_start v) as [z|]; simpl in H2;
      [|discriminate].
    rewrite andb_false_r in H2. discriminate.
Qed.

(** The events of a run of the loop: what is returned is the number of
    counted messages, the loop itself never raises, and a sub-procedure
    is entered at most once, and only on a first iteration whose start
    and end are both set and whose batch shows the start ignored. *)
Lemma loop_run (fuel : nat) :
  forall (s e : option Z) (v : loop_vars) (w : World St),
    vars_ok s v ->
    exists evs,
      trace (snd (loop sync fuel s e v w)) = trace w ++ evs
      /\ (forall acc, length acc = total_count v ->
            match fst (loop sync fuel s e v w) with
            | Returns n => n = length (counted s e acc evs)
            | Raised _ => False
            | Out_of_fuel => True
            end)
      /\ (entries evs <= 1)%nat
      /\ (first_iteration v = false \/ truthy s = false \/ truthy e = false
          \/ start_ignored v
               (batch_of (fst (sync (store w) (fetch_params e v)))) = false ->
          entries evs = 0%nat).
Proof.
  induction fuel as [|fuel IH]; intros s e v w Hok.
  - exists []. simpl. rewrite app_nil_r. repeat split; auto.
  - cbn [loop].
    destruct (fetch_messages sync (fetch_params e v) w) as [resp w1] eqn:Hf.
    assert (Hresp : resp = fst (sync (store w) (fetch_params e v))).
    { rewrite fetch_messages_eq in Hf. now injection Hf as <- _. }
    apply fetch_messages_trace in Hf.
    pose proof (loop_body_inv s e v resp) as Hb.
    destruct (loop_body s e v resp) as [n|v'| |].
    + (* break *)
      exists [Fetch (fetch_params e v) resp]. cbn [fst snd].
      repeat split; auto.
      intros acc Hacc. rewrite counted_app_fetches, length_app. lia.
    + (* next iteration *)
      destruct Hb as (Ht & Hfirst & _).
      destruct (IH s e v' w1) as (evs & Htr & Hc & _ & H0).
      { intros Hv'. congruence. }
      exists (Fetch (fetch_params e v) resp :: evs).
      split; [|split; [|split]].
      * rewrite Htr, Hf, <- app_assoc. reflexivity.
      * intros acc Hacc. rewrite counted_fetch. apply Hc.
        rewrite length_app. lia.
      * change (entries evs <= 1)%nat. rewrite H0; auto.
      * intros _. change (entries evs = 0%nat). auto.
    + (* count_all_messages *)
      destruct Hb as (Hi & He).
      pose proof Hi as Hi'.
      apply start_ignored_inv in Hi as (Hfirst & Hcs & Hraw).
      destruct (Hok Hfirst) as (Hcur & Htot).
      destruct (IH None None (initial_vars None) (print Counting_all w1))
        as (evs & Htr & Hc & _ & H0); [apply initial_vars_ok|].
      exists (Fetch (fetch_params e v) resp :: Printed Counting_all :: evs).
      split; [|split; [|split]].
      * rewrite Htr. cbn [print trace]. rewrite Hf, <- !app_assoc.
        reflexivity.
      * intros acc Hacc. rewrite counted_fetch. cbn [counted].
        apply (Hc []). reflexivity.
      * change (S (entries evs) <= 1)%nat. rewrite H0; auto.
      * intros [H|[H|[H|H]]].
        -- congruence.
        -- rewrite <- Hcur in H. congruence.
        -- apply truthy_when in He. congruence.
        -- rewrite <- Hresp in H. congruence.
    + (* find_actual_start_near_end *)
      destruct Hb as (Hi & He & _).
      pose proof Hi as Hi'.
      apply start_ignored_inv in Hi as (Hfirst & Hcs & Hraw).
      destruct (Hok Hfirst) as (Hcur & Htot).
      rewrite Hcur in Hcs.
      destruct s as [os|]; [|discriminate].
      destruct e as [e|]; [|discriminate].
      apply truthy_some in Hcs, He.
      unfold find_actual_start_near_end.
      destruct (search_run search_ranges os e (print Finding_range w1) Hcs He)
        as (evs & Htr & Hn & Hc).
      exists (Fetch (fetch_params (Some e) v) resp
              :: Printed Finding_range :: evs).
      assert (Htrace : trace (snd (search sync search_ranges os e
                                     (print Finding_range w1)))
                       = trace w ++ Fetch (fetch_params (Some e) v) resp
                           :: Printed Finding_range :: evs).
      { rewrite Htr. cbn [print trace]. rewrite Hf, <- !app_assoc.
        reflexivity. }
      assert (Hent : entries (Fetch (fetch_params (Some e) v) resp
                              :: Printed Finding_range :: evs) = 1%nat).
      { change (S (entries evs) = 1%nat). now rewrite Hn. }
      assert (Hno : first_iteration v = false \/ truthy (Some os) = false
                    \/ truthy (Some e) = false
                    \/ start_ignored v
                         (batch_of (fst (sync (store w)
                                           (fetch_params (Some e) v))))
                       = false -> False).
      { intros [H|[H|[H|H]]]; try congruence.
        - apply truthy_some in Hcs. congruence.
        - apply truthy_some in He. congruence. }
      destruct (search sync search_ranges os e (print Finding_range w1))
        as [[n|x|] w2] eqn:Hs; cbn [fst snd] in *.
      * split; [assumption|]. split; [|split].
        -- intros acc Hacc. rewrite counted_fetch. cbn [counted].
           specialize (Hc []). simpl length in Hc. lia.
        -- lia.
        -- intros H. destruct (Hno H).
      * split; [assumption|]. split; [|split].
        -- intros acc Hacc. rewrite counted_fetch. cbn [counted].
           rewrite (Hc []). simpl. assumption.
        -- lia.
        -- intros H. destruct (Hno H).
      * destruct (Hc []).
Qed.

End Runs.

(** ** Counted messages *)

Lemma counted_no_entry (s e : option Z) (evs : list event) :
  forall acc,
    entries evs = 0%nat ->
    counted s e acc evs = acc ++ filter (in_range s e) (messages_fetched evs).
Proof.
  induction evs as [|ev evs IH]; intros acc H.
  - simpl. now rewrite app_nil_r.
  - destruct ev as [req resp|line].
    + rewrite counted_fetch, IH by exact H.
      cbn [messages_fetched flat_map]. now rewrite filter_app, app_assoc.
    + destruct line; try discriminate H; simpl; now apply IH.
Qed.

Lemma counted_forall (P : Z -> Prop) (s e : option Z) :
  (forall t, in_range s e t = true -> P t) ->
  forall evs acc,
    Forall P acc ->
    ~ In (Printed Counting_all) evs ->
    Forall P (counted s e acc evs).
Proof.
  intros HP. induction evs as [|ev evs IH]; intros acc Hacc Hno.
  - exact Hacc.
  - assert (Hno' : ~ In (Printed Counting_all) evs)
      by (intros H; apply Hno; now right).
    destruct ev as [req resp|line].
    + rewrite counted_fetch. apply IH; [|exact Hno'].
      apply Forall_app. split; [exact Hacc|].
      apply Forall_forall. intros t [_ Ht]%filter_In. now apply HP.
    + destruct line; simpl; try (now apply IH).
      exfalso. apply Hno. now left.
Qed.

Lemma loop_body_count_all (s e : option Z) (v : loop_vars) (raw : list Z) :
  start_ignored v raw = true ->
  when e (fun e' => e' >? py_max raw + 10 ^ 15) = true ->
  loop_body s e v (Envelope (Some raw)) = Return_count_all.
Proof.
  intros Hi He. unfold loop_body. now rewrite Hi, He.
Qed.

Lemma loop_body_find (s e : option Z) (v : loop_vars) (raw : list Z) :
  start_ignored v raw = true ->
  truthy e = true ->
  when e (fun e' => e' >? py_max raw + 10 ^ 15) = false ->
  loop_body s e v (Envelope (Some raw)) = Return_find_actual_start.
Proof.
  intros Hi He Hf. unfold loop_body. now rewrite Hi, He, Hf.
Qed.

Lemma start_ignored_first (s : Z) (raw : list Z) :
  s <> 0 -> raw <> [] -> s < py_min raw - 10 ^ 14 ->
  start_ignored (initial_vars (Some s)) raw = true.
Proof.
  intros Hs Hraw Hlt. unfold start_ignored. cbn [initial_vars first_iteration
    current_start andb]. rewrite when_some by assumption.
  apply andb_true_iff. split.
  - destruct raw; [congruence|reflexivity].
  - now apply Z.ltb_lt.
Qed.

Section Claims.

Context {St : Type}.
Variable sync : St -> request -> response * St.

(** C10: the full scan runs the counting loop with both bounds absent;
    a run with no start never enters a sub-procedure, so the nested run
    does not recurse again; and any run enters a sub-procedure (full scan
    or bisection) at most once.  This holds for every amount of fuel,
    that is at every point of every run. *)
Theorem sub_procedure_entered_at_most_once (fuel : nat) (s e : option Z)
    (w : World St) :
  count_all_messages sync fuel w
  = count_messages_in_channel sync fuel None None (print Counting_all w)
  /\ (forall raw, start_ignored (initial_vars None) raw = false)
  /\ (exists evs,
        trace (snd (count_messages_in_channel sync fuel None None w))
        = trace w ++ evs
        /\ entries evs = 0%nat)
  /\ (exists evs,
        trace (snd (count_messages_in_channel sync fuel s e w))
        = trace w ++ evs
        /\ (entries evs <= 1)%nat).
Proof.
  split; [reflexivity|]. split; [reflexivity|]. split.
  - destruct (loop_run sync fuel None None (initial_vars None) w
                (initial_vars_ok None)) as (evs & Htr & _ & _ & H0).
    exists evs. split; [exact Htr|]. apply H0. auto.
  - destruct (loop_run sync fuel s e (initial_vars s) w (initial_vars_ok s))
      as (evs & Htr & _ & H1 & _).
    exists evs. split; [exact Htr|exact H1].
Qed.

(** C7: when the start is set and the first batch does not show it
    ignored, the count returned is the number of fetched messages that
    are in range for the caller's start and end; each of them has a
    timetoken strictly above the caller's start. *)
Theorem start_bound_is_exclusive (fuel : nat) (s : Z) (e : option Z)
    (w : World St) (n : nat) :
  s <> 0 ->
  start_ignored (initial_vars (Some s))
    (batch_of (fst (sync (store w) (fetch_params e (initial_vars (Some s))))))
  = false ->
  fst (count_messages_in_channel sync fuel (Some s) e w) = Returns n ->
  exists evs,
    trace (snd (count_messages_in_channel sync fuel (Some s) e w))
    = trace w ++ evs
    /\ entries evs = 0%nat
    /\ n = length (filter (in_range (Some s) e) (messages_fetched evs))
    /\ Forall (fun t => s < t)
         (filter (in_range (Some s) e) (messages_fetched evs)).
Proof.
  intros Hs Hno Hret. unfold count_messages_in_channel in *.
  destruct (loop_run sync fuel (Some s) e (initial_vars (Some s)) w
              (initial_vars_ok _)) as (evs & Htr & Hc & _ & H0).
  exists evs. split; [exact Htr|].
  assert (He : entries evs = 0%nat) by (apply H0; auto).
  split; [exact He|]. split.
  - specialize (Hc [] eq_refl). rewrite Hret in Hc.
    now rewrite counted_no_entry in Hc.
  - apply Forall_forall. intros t [_ Ht]%filter_In.
    eapply in_range_start; eassumption.
Qed.

(** C2, amended: with an end set, in a run that did not enter the full
    scan, the count returned is the number of counted messages and each
    of them has a timetoken at most the end; this covers the runs of the
    main loop, with or without the start ignored, and of the bisection. *)
Theorem end_bound_outside_full_scan (fuel : nat) (s : option Z) (e : Z)
    (w w' : World St) (n : nat) (evs : list event) :
  e <> 0 ->
  count_messages_in_channel sync fuel s (Some e) w = (Returns n, w') ->
  trace w' = trace w ++ evs ->
  ~ In (Printed Counting_all) evs ->
  n = length (counted s (Some e) [] evs)
  /\ Forall (fun t => t <= e) (counted s (Some e) [] evs).
Proof.
  intros He Hrun Htrace Hno. unfold count_messages_in_channel in Hrun.
  destruct (loop_run sync fuel s (Some e) (initial_vars s) w
              (initial_vars_ok _)) as (evs0 & Htr & Hc & _).
  rewrite Hrun in Htr, Hc. cbn [fst snd] in Htr, Hc.
  rewrite Htrace in Htr. apply app_inv_head in Htr. subst evs0. split.
  - exact (Hc [] eq_refl).
  - apply counted_forall; [|constructor|exact Hno].
    intros t. now apply in_range_end.
Qed.

(** C6: a store whose answer to the first request is the one batch
    [150, 160, 201] makes the count of the range (100, 200] return 2. *)
Theorem example_count_is_two (fuel : nat) (w : World St) :
  fst (sync (store w) (Request (Some 100) (Some 200) 100))
  = Envelope (Some [150; 160; 201]) ->
  count_messages_in_channel sync (S fuel) (Some 100) (Some 200) w
  = (Returns 2,
     snd (fetch_messages sync (Request (Some 100) (Some 200) 100) w)).
Proof.
  intros H. unfold count_messages_in_channel. cbn [loop].
  change (fetch_params (Some 200) (initial_vars (Some 100)))
    with (Request (Some 100) (Some 200) 100).
  rewrite fetch_messages_eq, H. reflexivity.
Qed.

(** C1, amended: when the first batch shows the start ignored, what the
    counter does depends on the end.  If an end is set and is more than
    [10**15] above the newest message of the batch, the full scan is
    entered and its count is returned.  If an end is set otherwise, the
    bisection is entered and its count is returned (0 if it raises).
    With no end, no sub-procedure is entered: the loop goes on and the
    count is the number of fetched messages above the start. *)
Theorem ignored_start_dispatch (fuel : nat) (s : Z) (e : option Z)
    (w : World St) (raw : list Z) :
  s <> 0 ->
  fst (sync (store w) (fetch_params e (initial_vars (Some s))))
  = Envelope (Some raw) ->
  raw <> [] ->
  s < py_min raw - 10 ^ 14 ->
  let w1 :=
    snd (fetch_messages sync (fetch_params e (initial_vars (Some s))) w) in
  let run := count_messages_in_channel sync (S fuel) (Some s) e w in
  if when e (fun e' => e' >? py_max raw + 10 ^ 15)
  then run = count_all_messages sync fuel w1
  else if truthy e
  then exists e',
         e = Some e'
         /\ run = (let r := find_actual_start_near_end sync s e' w1 in
                   match fst r with
                   | Raised _ => (Returns 0, snd r)
                   | _ => r
                   end)
  else exists evs,
         trace (snd run) = trace w ++ evs
         /\ entries evs = 0%nat
         /\ forall n,
              fst run = Returns n ->
              n = length (filter (in_range (Some s) e) (messages_fetched evs)).
Proof.
  intros Hs Hresp Hraw Hlt w1 run.
  pose proof (start_ignored_first s raw Hs Hraw Hlt) as Hi.
  destruct (when e (fun e' => e' >? py_max raw + 10 ^ 15)) eqn:Hfar;
    [|destruct (truthy e) eqn:He].
  - unfold run, w1, count_all_messages, count_messages_in_channel.
    cbn [loop]. rewrite fetch_messages_eq, Hresp.
    now rewrite loop_body_count_all.
  - destruct e as [e'|]; [|discriminate He]. exists e'.
    split; [reflexivity|].
    unfold run, w1, count_messages_in_channel.
    cbn [loop]. rewrite fetch_messages_eq, Hresp.
    rewrite loop_body_find by assumption. cbn [initial_vars total_count].
    destruct (find_actual_start_near_end sync s e' _) as [[k|x|] w2];
      reflexivity.
  - unfold run, count_messages_in_channel.
    destruct (loop_run sync (S fuel) (Some s) e (initial_vars (Some s)) w
                (initial_vars_ok _)) as (evs & Htr & Hc & _ & H0).
    exists evs. split; [exact Htr|].
    assert (H : entries evs = 0%nat) by (apply H0; auto).
    split; [exact H|]. intros n Hret.
    specialize (Hc [] eq_refl). rewrite Hret in Hc.
    now rewrite counted_no_entry in Hc.
Qed.

End Claims.

Section More_claims.

Context {St : Type}.
Variable sync : St -> request -> response * St.

Lemma count_never_raises (fuel : nat) (s e : option Z) (w : World St)
    (x : exn) :
  fst (count_messages_in_channel sync fuel s e w) <> Raised x.
Proof.
  unfold count_messages_in_channel.
  destruct (loop_run sync fuel s e (initial_vars s) w (initial_vars_ok s))
    as (evs & _ & Hc & _).
  specialize (Hc [] eq_refl). intros H. now rewrite H in Hc.
Qed.

(** C3, amended: in the counting loop (which is also the loop of the full
    scan), at any iteration, a fetch that returns an error envelope or
    raises ends the loop: the count accumulated so far is returned and
    the only event added is that fetch; both kinds of failure do the
    same.  Counting never raises.  In the bisection an exception is
    raised to the caller, which returns its accumulated count, and an
    error envelope only moves the search on to the next range size. *)
Theorem fetch_failure_ends_loop (fuel : nat) (s e : option Z)
    (v : loop_vars) (w : World St) :
  is_failure (fst (sync (store w) (fetch_params e v))) = true ->
  loop sync (S fuel) s e v w
  = (Returns (total_count v),
     {| store := snd (sync (store w) (fetch_params e v));
        trace := trace w
                 ++ [Fetch (fetch_params e v)
                       (fst (sync (store w) (fetch_params e v)))] |})
  /\ (forall x, fst (count_messages_in_channel sync fuel s e w) <> Raised x)
  /\ (forall range_size rest os e',
        let w1 :=
          snd (fetch_messages sync (search_params os e' range_size) w) in
        match fst (sync (store w) (search_params os e' range_size)) with
        | Raises x =>
          search sync (range_size :: rest) os e' w = (Raised x, w1)
        | Envelope_error =>
          search sync (range_size :: rest) os e' w
          = search sync rest os e' w1
        | Envelope _ => True
        end).
Proof.
  intros Hfail. split; [|split].
  - cbn [loop]. rewrite fetch_messages_eq.
    destruct (fst (sync (store w) (fetch_params e v))) as [x| |m];
      try discriminate Hfail; reflexivity.
  - intros x. apply count_never_raises.
  - intros range_size rest os e' w1. unfold w1. cbn [search].
    rewrite fetch_messages_eq.
    destruct (fst (sync (store w) (search_params os e' range_size)))
      as [x| |m]; cbn [snd]; auto.
Qed.

Lemma probed_trace (os e : Z) (ranges : list Z) (w w' : World St)
    (resps : list response) :
  probed sync os e ranges w resps w' ->
  trace w' = trace w ++ probe_events os e ranges resps.
Proof.
  induction 1 as [w|range_size ranges w w1 w' resp resps Hf _ IH].
  - simpl. now rewrite app_nil_r.
  - apply fetch_messages_trace in Hf.
    rewrite IH, Hf, <- app_assoc. reflexivity.
Qed.

Lemma search_after_misses (os e : Z) (pre : list Z) (w w1 : World St)
    (resps : list response) :
  probed sync os e pre w resps w1 ->
  Forall (fun r => is_miss r = true) resps ->
  forall rest, search sync (pre ++ rest) os e w = search sync rest os e w1.
Proof.
  induction 1 as [w|range_size ranges w w1 w' resp resps Hf _ IH];
    intros Hmiss rest.
  - reflexivity.
  - inversion Hmiss as [|r rs Hr Hrs]; subst.
    cbn [app search]. rewrite Hf.
    destruct resp as [x| |[raw|]]; try discriminate Hr;
      try (now apply IH).
    destruct raw; [now apply IH|discriminate Hr].
Qed.

(** C4: the bisection goes through the range sizes [2*10**7], [5*10**7],
    [10**8], [10**9], [10**10] in this order, fetching for each with
    start [max(end - size, original_start)], the end, and count 100; as
    soon as a fetch returns a batch that is not empty, it returns the
    number of its messages with [original_start < timetoken <= end],
    whatever the size of the batch (a full batch of 100 included), and
    fetches nothing more. *)
Theorem bisection_returns_first_hit (os e : Z) (w w1 w2 : World St)
    (pre post : list Z) (range_size : Z) (resps : list response)
    (raw : list Z) :
  search_ranges = pre ++ range_size :: post ->
  probed sync os e pre (print Finding_range w) resps w1 ->
  Forall (fun r => is_miss r = true) resps ->
  fetch_messages sync (search_params os e range_size) w1
  = (Envelope (Some raw), w2) ->
  raw <> [] ->
  find_actual_start_near_end sync os e w
  = (Returns (length (filter (fun t => (os <? t) && (t <=? e)) raw)), w2)
  /\ trace w2
     = trace w ++ Printed Finding_range
         :: probe_events os e pre resps
         ++ [Fetch (search_params os e range_size) (Envelope (Some raw))]
  /\ (forall size,
        search_params os e size
        = {| req_start := Some (Z.max (e - size) os);
             req_end := Some e;
             req_count := 100 |})
  /\ search_ranges
     = [20000000; 50000000; 100000000; 1000000000; 10000000000].
Proof.
  intros Hsplit Hpre Hmiss Hf Hraw. split; [|split; [|split]].
  - unfold find_actual_start_near_end. rewrite Hsplit.
    rewrite (search_after_misses os e pre _ w1 resps Hpre Hmiss).
    cbn [search]. rewrite Hf.
    destruct raw as [|t raw']; [congruence|]. cbn [length Nat.ltb Nat.leb].
    do 3 f_equal. apply filter_ext. intros a. unfold match_criteria.
    now rewrite Z.gtb_ltb.
  - apply fetch_messages_trace in Hf. apply probed_trace in Hpre.
    rewrite Hf, Hpre. cbn [print trace].
    rewrite <- !app_assoc. reflexivity.
  - intros size. unfold search_params. f_equal. f_equal.
    destruct (e - size <? os) eqn:E; lia.
  - reflexivity.
Qed.

(** C8, amended: when [--start] and [--end] are both given and not zero,
    and start >= end, the program prints the validation error and exits
    with status 1; the store is not called. *)
Theorem invalid_range_exits_before_any_fetch (fuel : nat) (s e : Z)
    (w : World St) :
  s <> 0 -> e <> 0 -> s >= e ->
  main sync fuel (Some s) (Some e) w
  = (Returns 1,
     {| store := store w; trace := trace w ++ [Printed Start_must_be_less] |}).
Proof.
  intros Hs He Hge. unfold main, invalid_range.
  rewrite when_some by assumption. rewrite when_some by assumption.
  replace (s >=? e) with true by lia. reflexivity.
Qed.

End More_claims.

Section Zero_bounds.

Context {St : Type}.
Variable sync : St -> request -> response * St.

Lemma loop_zero_start (fuel : nat) :
  forall (e : option Z) (v : loop_vars) (w : World St),
    first_iteration v = false ->
    loop sync fuel (Some 0) e v w = loop sync fuel None e v w.
Proof.
  induction fuel as [|fuel IH]; intros e v w Hfirst; [reflexivity|].
  cbn [loop].
  destruct (fetch_messages sync (fetch_params e v) w) as [resp w1].
  change (loop_body (Some 0) e v resp) with (loop_body None e v resp).
  pose proof (loop_body_inv None e v resp) as Hb.
  destruct (loop_body None e v resp) as [n|v'| |].
  - reflexivity.
  - apply IH. apply Hb.
  - reflexivity.
  - destruct Hb as (Hi & _).
    apply start_ignored_inv in Hi as (Hf & _). congruence.
Qed.

Lemma count_zero_start (fuel : nat) (e : option Z) (w : World St) :
  count_messages_in_channel sync fuel (Some 0) e w
  = count_messages_in_channel sync fuel None e w.
Proof.
  unfold count_messages_in_channel.
  destruct fuel as [|fuel]; [reflexivity|]. cbn [loop].
  change (fetch_params e (initial_vars (Some 0)))
    with (fetch_params e (initial_vars None)).
  destruct (fetch_messages sync (fetch_params e (initial_vars None)) w)
    as [resp w1].
  change (loop_body (Some 0) e (initial_vars (Some 0)) resp)
    with (loop_body None e (initial_vars None) resp).
  pose proof (loop_body_inv None e (initial_vars None) resp) as Hb.
  destruct (loop_body None e (initial_vars None) resp) as [n|v'| |].
  - reflexivity.
  - apply loop_zero_start. apply Hb.
  - reflexivity.
  - destruct Hb as (Hi & _).
    apply start_ignored_inv in Hi as (_ & Hc & _). discriminate Hc.
Qed.

Lemma loop_zero_end (fuel : nat) :
  forall (s : option Z) (v : loop_vars) (w : World St),
    loop sync fuel s (Some 0) v w = loop sync fuel s None v w.
Proof.
  induction fuel as [|fuel IH]; intros s v w; [reflexivity|].
  cbn [loop].
  change (fetch_params (Some 0) v) with (fetch_params None v).
  destruct (fetch_messages sync (fetch_params None v) w) as [resp w1].
  change (loop_body s (Some 0) v resp) with (loop_body s None v resp).
  pose proof (loop_body_inv s None v resp) as Hb.
  destruct (loop_body s None v resp) as [n|v'| |].
  - reflexivity.
  - apply IH.
  - reflexivity.
  - destruct Hb as (_ & He & _). discriminate He.
Qed.

Lemma invalid_range_zero_end (s : option Z) : invalid_range s (Some 0) = false.
Proof.
  destruct s as [s|]; [|reflexivity]. simpl. apply andb_false_r.
Qed.

(** C9: a bound equal to 0 is an absent bound.  With start 0 the
    validation of [main] does not fire, the first request has no start,
    the filter does not test the start, and counting and [main] do what
    they do with no start.  With end 0 the validation does not fire, no
    request has an end, the filter does not test the end, and counting
    and [main] do what they do with no end. *)
Theorem zero_bound_is_absent (fuel : nat) (s e : option Z) (w : World St) :
  (invalid_range (Some 0) e = false
   /\ req_start (fetch_params e (initial_vars (Some 0))) = None
   /\ (forall ignoring t,
         should_include ignoring (Some 0) (Some 0) e t
         = should_include ignoring None None e t)
   /\ count_messages_in_channel sync fuel (Some 0) e w
      = count_messages_in_channel sync fuel None e w
   /\ main sync fuel (Some 0) e w = main sync fuel None e w)
  /\ (invalid_range s (Some 0) = false
      /\ (forall v, req_end (fetch_params (Some 0) v) = None)
      /\ (forall ignoring t,
            should_include ignoring s s (Some 0) t
            = should_include ignoring s s None t)
      /\ count_messages_in_channel sync fuel s (Some 0) w
         = count_messages_in_channel sync fuel s None w
      /\ main sync fuel s (Some 0) w = main sync fuel s None w).
Proof.
  split.
  - split; [reflexivity|]. split; [reflexivity|].
    split; [intros [] t; reflexivity|].
    split; [apply count_zero_start|].
    unfold main. change (invalid_range (Some 0) e) with false.
    change (invalid_range None e) with false. cbv iota.
    now rewrite count_zero_start.
  - split; [apply invalid_range_zero_end|]. split; [reflexivity|].
    split; [intros ignoring t; reflexivity|].
    split; [apply loop_zero_end|].
    unfold main, count_messages_in_channel.
    rewrite invalid_range_zero_end, loop_zero_end.
    destruct s as [s|]; [|reflexivity].
    unfold invalid_range. simpl. now rewrite andb_false_r.
Qed.

End Zero_bounds.

(** ** Fuel *)

Section Fuel.

Context {St : Type}.
Variable sync : St -> request -> response * St.

Lemma search_finishes (ranges : list Z) (os e : Z) (w : World St) :
  fst (search sync ranges os e w) <> Out_of_fuel.
Proof.
  revert w. induction ranges as [|range_size rest IH]; intros w; simpl.
  - discriminate.
  - destruct (fetch_messages sync (search_params os e range_size) w)
      as [[x| |[raw|]] w1]; try apply IH; try discriminate.
    destruct (0 <? length raw)%nat; [discriminate|apply IH].
Qed.

Lemma search_trace (ranges : list Z) (os e : Z) (w : World St) :
  exists evs, trace (snd (search sync ranges os e w)) = trace w ++ evs.
Proof.
  revert w. induction ranges as [|range_size rest IH]; intros w; simpl.
  - exists []. now rewrite app_nil_r.
  - destruct (fetch_messages sync (search_params os e range_size) w)
      as [resp w1] eqn:Hf.
    apply fetch_messages_trace in Hf.
    assert (Hrest : exists evs,
               trace (snd (search sync rest os e w1)) = trace w ++ evs).
    { destruct (IH w1) as (evs & Htr). rewrite Htr, Hf, <- app_assoc.
      eexists. reflexivity. }
    destruct resp as [x| |[raw|]]; try exact Hrest.
    + eexists. exact Hf.
    + destruct (0 <? length raw)%nat; [|exact Hrest].
      eexists. exact Hf.
Qed.

(** A run that finished with some fuel finishes in the same way with
    more. *)
Lemma loop_more_fuel (fuel : nat) :
  forall (k : nat) (s e : option Z) (v : loop_vars) (w : World St),
    fst (loop sync fuel s e v w) <> Out_of_fuel ->
    loop sync (fuel + k) s e v w = loop sync fuel s e v w.
Proof.
  induction fuel as [|fuel IH]; intros k s e v w H.
  - now contradict H.
  - cbn [Nat.add loop] in *.
    destruct (fetch_messages sync (fetch_params e v) w) as [resp w1].
    destruct (loop_body s e v resp) as [n|v'| |]; auto.
Qed.

End Fuel.

(** ** Stores whose timetokens are positive *)

Section Positive_store.

Context {St : Type}.
Variable sync : St -> request -> response * St.

(** An invariant of the store under which every timetoken it returns is
    positive. *)
Variable Inv : St -> Prop.
Hypothesis Inv_sync :
  forall st req,
    Inv st ->
    Inv (snd (sync st req))
    /\ Forall (fun t => 0 < t) (batch_of (fst (sync st req))).

Lemma continue_decreases (s e : option Z) (v v' : loop_vars)
    (w : World St) :
  Inv (store w) ->
  loop_body s e v (fst (sync (store w) (fetch_params e v))) = Continue v' ->
  first_iteration v' = false
  /\ exists c,
       0 < c
       /\ current_start v' = Some c
       /\ previous_oldest_timetoken v' = Some c
       /\ forall p, previous_oldest_timetoken v = Some p -> 0 < p -> c < p.
Proof.
  intros Hinv Hb.
  pose proof (loop_body_inv s e v (fst (sync (store w) (fetch_params e v))))
    as H.
  rewrite Hb in H.
  destruct H as (_ & Hfirst & raw & c & Hresp & _ & Hin & Hc & Hp & Hw).
  split; [exact Hfirst|]. exists c.
  destruct (Inv_sync (store w) (fetch_params e v) Hinv) as (_ & Hpos).
  rewrite Hresp in Hpos. cbn [batch_of] in Hpos.
  rewrite Forall_forall in Hpos.
  repeat split; auto.
  intros p Hprev Hp0. rewrite Hprev, when_some in Hw by lia. lia.
Qed.

(** After the first iteration: the cursors used are strictly decreasing. *)
Lemma paging_cursors (fuel : nat) :
  forall (s e : option Z) (v : loop_vars) (w : World St) (p : Z),
    Inv (store w) ->
    first_iteration v = false ->
    current_start v = Some p ->
    previous_oldest_timetoken v = Some p ->
    0 < p ->
    exists evs cs,
      trace (snd (loop sync fuel s e v w)) = trace w ++ evs
      /\ entries evs = 0%nat
      /\ cursors evs = map Some cs
      /\ StronglySorted Z.gt cs
      /\ Forall (fun c => c <= p) cs.
Proof.
  induction fuel as [|fuel IH]; intros s e v w p Hinv Hfirst Hcur Hprev Hp.
  - exists [], []. simpl. rewrite app_nil_r. repeat split; constructor.
  - cbn [loop]. rewrite fetch_messages_eq.
    set (req := fetch_params e v).
    assert (Hreq : req_start req = Some p).
    { unfold req, fetch_params. cbn [req_start]. rewrite Hcur.
      replace (truthy (Some p)) with true; [reflexivity|].
      symmetry. apply truthy_some. lia. }
    pose proof (loop_body_inv s e v (fst (sync (store w) req))) as Hb.
    pose proof (continue_decreases s e v) as Hdec.
    fold req in Hdec.
    destruct (loop_body s e v (fst (sync (store w) req))) as [n|v'| |]
      eqn:Hbody.
    + exists [Fetch req (fst (sync (store w) req))], [p]. cbn [snd trace].
      repeat split.
      * unfold cursors, requests. cbn [flat_map map app]. now rewrite Hreq.
      * repeat constructor.
      * repeat constructor. lia.
    + destruct (Hdec v' w Hinv Hbody) as (Hf' & c & Hc0 & Hc & Hpc & Hlt).
      specialize (Hlt p Hprev Hp).
      destruct (IH s e v'
                  {| store := snd (sync (store w) req);
                     trace := trace w ++ [Fetch req (fst (sync (store w) req))] |}
                  c) as (evs & cs & Htr & Hent & Hcs & Hsorted & Hle);
        auto.
      { cbn [store]. apply Inv_sync. exact Hinv. }
      exists (Fetch req (fst (sync (store w) req)) :: evs), (p :: cs).
      split; [|split; [|split; [|split]]].
      * rewrite Htr. cbn [trace]. rewrite <- app_assoc. reflexivity.
      * exact Hent.
      * unfold cursors, requests in *. cbn [flat_map map app].
        now rewrite Hreq, Hcs.
      * constructor; [exact Hsorted|].
        eapply Forall_impl; [|exact Hle]. simpl. intros a Ha. lia.
      * constructor; [lia|].
        eapply Forall_impl; [|exact Hle]. simpl. intros a Ha. lia.
    + destruct Hb as (Hi & _).
      apply start_ignored_inv in Hi as (Hf & _). congruence.
    + destruct Hb as (Hi & _).
      apply start_ignored_inv in Hi as (Hf & _). congruence.
Qed.

(** After the first iteration: the loop returns within as many further
    iterations as the value of its cursor. *)
Lemma paging_terminates (fuel : nat) :
  forall (s e : option Z) (v : loop_vars) (w : World St) (p : Z),
    Inv (store w) ->
    first_iteration v = false ->
    previous_oldest_timetoken v = Some p ->
    0 < p ->
    (Z.to_nat p <= fuel)%nat ->
    fst (loop sync fuel s e v w) <> Out_of_fuel.
Proof.
  induction fuel as [|fuel IH]; intros s e v w p Hinv Hfirst Hprev Hp Hfuel.
  - lia.
  - cbn [loop]. rewrite fetch_messages_eq.
    set (req := fetch_params e v).
    pose proof (loop_body_inv s e v (fst (sync (store w) req))) as Hb.
    pose proof (continue_decreases s e v) as Hdec.
    fold req in Hdec.
    destruct (loop_body s e v (fst (sync (store w) req))) as [n|v'| |]
      eqn:Hbody.
    + discriminate.
    + destruct (Hdec v' w Hinv Hbody) as (Hf' & c & Hc0 & Hc & Hpc & Hlt).
      specialize (Hlt p Hprev Hp).
      apply (IH s e v' _ c); auto.
      * cbn [store]. apply Inv_sync. exact Hinv.
      * lia.
    + destruct Hb as (Hi & _).
      apply start_ignored_inv in Hi as (Hf & _). congruence.
    + destruct Hb as (Hi & _).
      apply start_ignored_inv in Hi as (Hf & _). congruence.
Qed.

(** A run that cannot enter a sub-procedure finishes. *)
Lemma plain_run_terminates (s e : option Z) (v : loop_vars) (w : World St) :
  Inv (store w) ->
  first_iteration v = false \/ truthy (current_start v) = false ->
  exists fuel, fst (loop sync fuel s e v w) <> Out_of_fuel.
Proof.
  intros Hinv Hplain.
  set (req := fetch_params e v).
  pose proof (loop_body_inv s e v (fst (sync (store w) req))) as Hb.
  pose proof (continue_decreases s e v) as Hdec. fold req in Hdec.
  destruct (loop_body s e v (fst (sync (store w) req))) as [n|v'| |] eqn:Hbody.
  - exists 1%nat. cbn [loop]. rewrite fetch_messages_eq. fold req.
    rewrite Hbody. discriminate.
  - destruct (Hdec v' w Hinv Hbody) as (Hf' & c & Hc0 & Hc & Hpc & _).
    exists (S (Z.to_nat c)). cbn [loop]. rewrite fetch_messages_eq. fold req.
    rewrite Hbody. apply (paging_terminates _ s e v' _ c); auto.
    cbn [store]. apply Inv_sync. exact Hinv.
  - destruct Hb as (Hi & _).
    apply start_ignored_inv in Hi as (Hf & Ht & _).
    destruct Hplain; congruence.
  - destruct Hb as (Hi & _).
    apply start_ignored_inv in Hi as (Hf & Ht & _).
    destruct Hplain; congruence.
Qed.

Lemma count_terminates (s e : option Z) (w : World St) :
  Inv (store w) ->
  exists fuel,
    fst (count_messages_in_channel sync fuel s e w) <> Out_of_fuel.
Proof.
  intros Hinv. unfold count_messages_in_channel.
  set (v := initial_vars s).
  set (req := fetch_params e v).
  pose proof (continue_decreases s e v) as Hdec. fold req in Hdec.
  destruct (loop_body s e v (fst (sync (store w) req))) as [n|v'| |] eqn:Hbody.
  - exists 1%nat. cbn [loop]. rewrite fetch_messages_eq. fold req.
    rewrite Hbody. discriminate.
  - destruct (Hdec v' w Hinv Hbody) as (Hf' & c & Hc0 & Hc & Hpc & _).
    exists (S (Z.to_nat c)). cbn [loop]. rewrite fetch_messages_eq. fold req.
    rewrite Hbody. apply (paging_terminates _ s e v' _ c); auto.
    cbn [store]. apply Inv_sync. exact Hinv.
  - destruct (plain_run_terminates None None (initial_vars None)
                (print Counting_all
                   {| store := snd (sync (store w) req);
                      trace := trace w
                               ++ [Fetch req (fst (sync (store w) req))] |}))
      as (fuel & Hfuel).
    + cbn [print store]. apply Inv_sync. exact Hinv.
    + right. reflexivity.
    + exists (S fuel). cbn [loop]. rewrite fetch_messages_eq. fold req.
      rewrite Hbody. exact Hfuel.
  - exists 1%nat. cbn [loop]. rewrite fetch_messages_eq. fold req.
    rewrite Hbody.
    destruct s as [os|]; [|discriminate].
    destruct e as [e|]; [|discriminate].
    unfold find_actual_start_near_end.
    match goal with
    | |- context [search sync ?r ?a ?b ?w0] =>
      pose proof (search_finishes sync r a b w0) as Hs;
      destruct (search sync r a b w0) as [[k|x|] w2]
    end; cbn [fst] in *; try discriminate. congruence.
Qed.

(** C5, amended: the loop goes on to another fetch only with a next
    cursor strictly below the previous oldest timetoken, when that is set
    (not zero).  So, with a store whose timetokens are positive, in a run
    that enters no sub-procedure the cursors after the first request
    (which has the caller's start) are strictly decreasing; and counting
    terminates: some amount of fuel, and any larger one, gives its
    result. *)
Theorem cursors_decrease_and_count_terminates (fuel : nat) (s e : option Z)
    (w : World St) (evs : list event) :
  Inv (store w) ->
  trace (snd (count_messages_in_channel sync fuel s e w)) = trace w ++ evs ->
  entries evs = 0%nat ->
  (forall v resp v' p c,
     loop_body s e v resp = Continue v' ->
     previous_oldest_timetoken v = Some p ->
     p <> 0 ->
     current_start v' = Some c ->
     c < p)
  /\ (exists cs, tl (cursors evs) = map Some cs /\ StronglySorted Z.gt cs)
  /\ (exists fuel' n w',
        forall k,
          count_messages_in_channel sync (fuel' + k) s e w = (Returns n, w')).
Proof.
  intros Hinv Htrace Hent. split; [|split].
  - intros v resp v' p c Hbody Hprev Hp Hcur.
    pose proof (loop_body_inv s e v resp) as Hb. rewrite Hbody in Hb.
    destruct Hb as (_ & _ & raw & c' & _ & _ & _ & Hc' & _ & Hw).
    rewrite Hprev, when_some in Hw by assumption.
    assert (c' = c) by congruence. lia.
  - unfold count_messages_in_channel in Htrace.
    destruct fuel as [|fuel].
    { simpl in Htrace. rewrite <- (app_nil_r (trace w)) in Htrace at 1.
      apply app_inv_head in Htrace. subst evs. exists []. split; constructor. }
    cbn [loop] in Htrace. rewrite fetch_messages_eq in Htrace.
    set (v := initial_vars s) in *.
    set (req := fetch_params e v) in *.
    set (resp := fst (sync (store w) req)) in *.
    set (w1 := {| store := snd (sync (store w) req);
                  trace := trace w ++ [Fetch req resp] |}) in *.
    pose proof (continue_decreases s e v) as Hdec. fold req in Hdec.
    destruct (loop_body s e v resp) as [n|v'| |] eqn:Hbody.
    + cbn [snd w1 trace] in Htrace. apply app_inv_head in Htrace. subst evs.
      exists []. split; constructor.
    + destruct (Hdec v' w Hinv Hbody) as (Hf' & c & Hc0 & Hc & Hpc & _).
      destruct (paging_cursors fuel s e v' w1 c)
        as (evs' & cs & Htr & _ & Hcs & Hsorted & _); auto.
      { cbn [w1 store]. apply Inv_sync. exact Hinv. }
      rewrite Htr in Htrace. cbn [w1 trace] in Htrace.
      rewrite <- app_assoc in Htrace. apply app_inv_head in Htrace.
      subst evs. exists cs. split; [|exact Hsorted].
      unfold cursors, requests in *. cbn [flat_map map app tl].
      exact Hcs.
    + destruct (loop_run sync fuel None None (initial_vars None)
                  (print Counting_all w1) (initial_vars_ok None))
        as (evs' & Htr & _).
      rewrite Htr in Htrace. cbn [print w1 trace] in Htrace.
      rewrite <- !app_assoc in Htrace. apply app_inv_head in Htrace.
      subst evs. discriminate Hent.
    + destruct s as [os|]; [destruct e as [e|]|].
      * unfold find_actual_start_near_end in Htrace.
        destruct (search_trace sync search_ranges os e
                    (print Finding_range w1)) as (evs' & Htr).
        assert (Hsnd : trace (snd (search sync search_ranges os e
                                     (print Finding_range w1)))
                       = trace w ++ evs).
        { destruct (search sync search_ranges os e (print Finding_range w1))
            as [[k|x|] w2]; exact Htrace. }
        rewrite Htr in Hsnd. cbn [print w1 trace] in Hsnd.
        rewrite <- !app_assoc in Hsnd. apply app_inv_head in Hsnd.
        subst evs. discriminate Hent.
      * cbn [snd w1 trace] in Htrace. apply app_inv_head in Htrace.
        subst evs. exists []. split; constructor.
      * cbn [snd w1 trace] in Htrace. apply app_inv_head in Htrace.
        subst evs. exists []. split; constructor.
  - destruct (count_terminates s e w Hinv) as (fuel' & Hfuel).
    destruct (count_messages_in_channel sync fuel' s e w) as [r w'] eqn:Hrun.
    destruct r as [n|x|].
    + exists fuel', n, w'. intros k. unfold count_messages_in_channel in *.
      rewrite loop_more_fuel; [exact Hrun|]. now rewrite Hrun.
    + exfalso. apply (count_never_raises sync fuel' s e w x).
      now rewrite Hrun.
    + now contradict Hfuel.
Qed.

End Positive_store.

(** ** Concrete runs *)

Lemma scripted_positive (script : list response) (req : request) :
  positive_script script ->
  positive_script (snd (scripted script req))
  /\ Forall (fun t => 0 < t) (batch_of (fst (scripted script req))).
Proof.
  intros H. destruct script as [|resp rest]; simpl.
  - split; constructor.
  - inversion H; subst. split; assumption.
Qed.

(** C1 as stated fails: start 1, no end, and a first batch whose only
    message is [2*10**14].  The count is 1 after that single fetch; the
    full scan is not entered, and it would have returned 3. *)
Lemma no_end_no_full_scan :
  let w := start_world script_ignored_start in
  let run := count_messages_in_channel scripted 5 (Some 1) None w in
  1 + 10 ^ 14 < py_min [2 * 10 ^ 14]
  /\ run
     = (Returns 1,
        {| store := [Envelope (Some [1; 2; 3])];
           trace := [Fetch (Request (Some 1) None 100)
                       (Envelope (Some [2 * 10 ^ 14]))] |})
  /\ fst (count_all_messages scripted 5 (snd run)) = Returns 3.
Proof.
  vm_compute. repeat split.
Qed.

Lemma ignored_start_dispatch_witness :
  let w := start_world script_full_scan in
  let e := Some (2 * 10 ^ 15) in
  let raw := [2 * 10 ^ 14] in
  1 <> 0
  /\ fst (scripted (store w) (fetch_params e (initial_vars (Some 1))))
     = Envelope (Some raw)
  /\ raw <> []
  /\ 1 < py_min raw - 10 ^ 14
  /\ count_messages_in_channel scripted 4 (Some 1) e w
     = count_all_messages scripted 3
         (snd (fetch_messages scripted
                 (fetch_params e (initial_vars (Some 1))) w)).
Proof.
  intros w e raw.
  assert (H1 : 1 <> 0) by lia.
  assert (H2 : fst (scripted (store w)
                      (fetch_params e (initial_vars (Some 1))))
               = Envelope (Some raw)) by reflexivity.
  assert (H3 : raw <> []) by discriminate.
  assert (H4 : 1 < py_min raw - 10 ^ 14) by (vm_compute; reflexivity).
  repeat (split; [assumption|]).
  exact (ignored_start_dispatch scripted 3 1 e w raw H1 H2 H3 H4).
Defined.

(** C2 as stated fails: start 1 and end [2*10**15]; the first batch shows
    the start ignored and the end far away, so the full scan runs, and it
    counts the two messages it fetches, both above the end.  Only one
    message at most the end was ever fetched. *)
Lemma full_scan_counts_beyond_end :
  let w := start_world script_full_scan in
  let e := 2 * 10 ^ 15 in
  let run := count_messages_in_channel scripted 5 (Some 1) (Some e) w in
  fst run = Returns 2
  /\ trace (snd run)
     = [Fetch (Request (Some 1) (Some e) 100) (Envelope (Some [2 * 10 ^ 14]));
        Printed Counting_all;
        Fetch (Request None None 100)
          (Envelope (Some [3 * 10 ^ 15; 4 * 10 ^ 15]))]
  /\ counted (Some 1) (Some e) [] (trace (snd run))
     = [3 * 10 ^ 15; 4 * 10 ^ 15]
  /\ e < 3 * 10 ^ 15
  /\ length (filter (fun t => t <=? e) (messages_fetched (trace (snd run))))
     = 1%nat.
Proof.
  vm_compute. repeat split.
Qed.

Lemma end_bound_outside_full_scan_witness :
  let w := start_world script_bisection_error in
  let run := count_messages_in_channel scripted 5 (Some 1) (Some 10) w in
  10 <> 0
  /\ run = (Returns 1, snd run)
  /\ trace (snd run) = trace w ++ trace (snd run)
  /\ ~ In (Printed Counting_all) (trace (snd run))
  /\ 1%nat = length (counted (Some 1) (Some 10) [] (trace (snd run)))
  /\ Forall (fun t => t <= 10)
       (counted (Some 1) (Some 10) [] (trace (snd run))).
Proof.
  intros w run.
  assert (H1 : 10 <> 0) by lia.
  assert (H2 : run = (Returns 1, snd run)) by (vm_compute; reflexivity).
  assert (H3 : trace (snd run) = trace w ++ trace (snd run)) by reflexivity.
  assert (H4 : ~ In (Printed Counting_all) (trace (snd run))).
  { vm_compute. intros [H|[H|[H|[H|[]]]]]; discriminate H. }
  repeat (split; [assumption|]).
  exact (end_bound_outside_full_scan scripted 5 (Some 1) 10 w (snd run) 1
           (trace (snd run)) H1 H2 H3 H4).
Defined.

(** C3 as stated fails: in the bisection a fetch that returns an error
    envelope is followed by another fetch, here with the very same
    parameters, and what that one returns is counted; a fetch that raises
    ends the count at once.  The two kinds are not treated alike. *)
Lemma bisection_goes_on_after_error :
  count_messages_in_channel scripted 5 (Some 1) (Some 10)
    (start_world script_bisection_error)
  = (Returns 1,
     {| store := [];
        trace :=
          [Fetch (Request (Some 1) (Some 10) 100)
             (Envelope (Some [2 * 10 ^ 14]));
           Printed Finding_range;
           Fetch (Request (Some 1) (Some 10) 100) Envelope_error;
           Fetch (Request (Some 1) (Some 10) 100) (Envelope (Some [5; 11]))]
     |})
  /\ count_messages_in_channel scripted 5 (Some 1) (Some 10)
       (start_world script_bisection_raise)
     = (Returns 0,
        {| store := [Envelope (Some [5; 11])];
           trace :=
             [Fetch (Request (Some 1) (Some 10) 100)
                (Envelope (Some [2 * 10 ^ 14]));
              Printed Finding_range;
              Fetch (Request (Some 1) (Some 10) 100)
                (Raises PubNubException)]
        |}).
Proof.
  vm_compute. split; reflexivity.
Qed.

Lemma fetch_failure_ends_loop_witness :
  let v := {| total_count := 7;
              current_start := Some 50;
              first_iteration := false;
              previous_oldest_timetoken := Some 50;
              api_ignoring_start := false |} in
  let w := start_world [Raises OtherException; Envelope (Some [5])] in
  is_failure (fst (scripted (store w) (fetch_params None v))) = true
  /\ loop scripted 3 (Some 1) None v w
     = (Returns 7,
        {| store := [Envelope (Some [5])];
           trace := [Fetch (Request (Some 50) None 100)
                       (Raises OtherException)] |}).
Proof.
  intros v w.
  assert (H : is_failure (fst (scripted (store w) (fetch_params None v)))
              = true) by reflexivity.
  split; [exact H|].
  exact (proj1 (fetch_failure_ends_loop scripted 2 (Some 1) None v w H)).
Defined.

Lemma bisection_returns_first_hit_witness :
  let w := start_world script_probes in
  let w1 :=
    snd (fetch_messages scripted (search_params 1 10 (5 * 10 ^ 7))
           (snd (fetch_messages scripted (search_params 1 10 (2 * 10 ^ 7))
                   (print Finding_range w)))) in
  let w2 := snd (fetch_messages scripted (search_params 1 10 (10 ^ 8)) w1) in
  let pre := [2 * 10 ^ 7; 5 * 10 ^ 7] in
  let post := [10 ^ 9; 10 ^ 10] in
  let resps := [Envelope (Some []); Envelope_error] in
  search_ranges = pre ++ 10 ^ 8 :: post
  /\ probed scripted 1 10 pre (print Finding_range w) resps w1
  /\ Forall (fun r => is_miss r = true) resps
  /\ fetch_messages scripted (search_params 1 10 (10 ^ 8)) w1
     = (Envelope (Some [5; 7; 20]), w2)
  /\ [5; 7; 20] <> []
  /\ find_actual_start_near_end scripted 1 10 w = (Returns 2, w2).
Proof.
  intros w w1 w2 pre post resps.
  assert (H1 : search_ranges = pre ++ 10 ^ 8 :: post) by reflexivity.
  assert (H2 : probed scripted 1 10 pre (print Finding_range w) resps w1).
  { eapply probed_cons; [reflexivity|].
    eapply probed_cons; [reflexivity|]. apply probed_nil. }
  assert (H3 : Forall (fun r => is_miss r = true) resps)
    by (repeat constructor).
  assert (H4 : fetch_messages scripted (search_params 1 10 (10 ^ 8)) w1
               = (Envelope (Some [5; 7; 20]), w2)) by reflexivity.
  assert (H5 : [5; 7; 20] <> []) by discriminate.
  repeat (split; [assumption|]).
  exact (proj1 (bisection_returns_first_hit scripted 1 10 w w1 w2 pre post
                  (10 ^ 8) resps [5; 7; 20] H1 H2 H3 H4 H5)).
Defined.

(** C5 as stated fails: start 100, no end.  The first batch has the 100
    messages 101..200, so the next cursor is 101, above the first one;
    the second batch repeats 150, 160 and 170, which are counted again:
    103 is returned for 100 different messages. *)
Lemma cursor_rises_and_messages_recounted :
  let w := start_world script_repeat in
  let run := count_messages_in_channel scripted 5 (Some 100) None w in
  fst run = Returns 103
  /\ cursors (trace (snd run)) = [Some 100; Some 101]
  /\ entries (trace (snd run)) = 0%nat
  /\ count_occ Z.eq_dec
       (filter (in_range (Some 100) None) (messages_fetched (trace (snd run))))
       150 = 2%nat
  /\ length (nodup Z.eq_dec (messages_fetched (trace (snd run)))) = 100%nat.
Proof.
  vm_compute. repeat split.
Qed.

(** The test of the previous oldest timetoken is a truthiness test: a
    batch whose oldest timetoken is 0 is followed by another fetch even
    when the next batch is the same one. *)
Lemma zero_timetoken_is_not_compared :
  let batch := Envelope (Some (tokens_from 0 100)) in
  let run :=
    count_messages_in_channel scripted 5 None None
      (start_world [batch; batch; Envelope (Some [])]) in
  fst run = Returns 200
  /\ length (requests (trace (snd run))) = 3%nat.
Proof.
  vm_compute. split; reflexivity.
Qed.

Lemma cursors_decrease_and_count_terminates_witness :
  let w := start_world script_pages in
  let evs := trace (snd (count_messages_in_channel scripted 5 None None w)) in
  positive_script (store w)
  /\ trace (snd (count_messages_in_channel scripted 5 None None w))
     = trace w ++ evs
  /\ entries evs = 0%nat
  /\ cursors evs = [None; Some 201; Some 101]
  /\ (forall v resp v' p c,
        loop_body None None v resp = Continue v' ->
        previous_oldest_timetoken v = Some p ->
        p <> 0 ->
        current_start v' = Some c ->
        c < p)
  /\ (exists cs, tl (cursors evs) = map Some cs /\ StronglySorted Z.gt cs)
  /\ (exists fuel' n w',
        forall k,
          count_messages_in_channel scripted (fuel' + k) None None w
          = (Returns n, w')).
Proof.
  intros w evs.
  assert (H1 : positive_script (store w)).
  { repeat constructor; apply Forall_forall; intros t Ht;
      apply in_map_iff in Ht as (i & <- & _); lia. }
  assert (H2 : trace (snd (count_messages_in_channel scripted 5 None None w))
               = trace w ++ evs) by reflexivity.
  assert (H3 : entries evs = 0%nat) by (vm_compute; reflexivity).
  split; [exact H1|]. split; [exact H2|]. split; [exact H3|].
  split; [vm_compute; reflexivity|].
  exact (cursors_decrease_and_count_terminates scripted positive_script
           scripted_positive 5 None None w evs H1 H2 H3).
Defined.

Lemma example_count_is_two_witness :
  let w := start_world script_example in
  fst (scripted (store w) (Request (Some 100) (Some 200) 100))
  = Envelope (Some [150; 160; 201])
  /\ count_messages_in_channel scripted 3 (Some 100) (Some 200) w
     = (Returns 2,
        {| store := [];
           trace := [Fetch (Request (Some 100) (Some 200) 100)
                       (Envelope (Some [150; 160; 201]))] |}).
Proof.
  intros w.
  assert (H : fst (scripted (store w) (Request (Some 100) (Some 200) 100))
              = Envelope (Some [150; 160; 201])) by reflexivity.
  split; [exact H|].
  exact (example_count_is_two scripted 2 w H).
Defined.

Lemma start_bound_is_exclusive_witness :
  let w := start_world [Envelope (Some [50; 150; 160])] in
  100 <> 0
  /\ start_ignored (initial_vars (Some 100))
       (batch_of (fst (scripted (store w)
                         (fetch_params None (initial_vars (Some 100))))))
     = false
  /\ fst (count_messages_in_channel scripted 3 (Some 100) None w) = Returns 2
  /\ exists evs,
       trace (snd (count_messages_in_channel scripted 3 (Some 100) None w))
       = trace w ++ evs
       /\ entries evs = 0%nat
       /\ 2%nat
          = length (filter (in_range (Some 100) None) (messages_fetched evs))
       /\ Forall (fun t => 100 < t)
            (filter (in_range (Some 100) None) (messages_fetched evs)).
Proof.
  intros w.
  assert (H1 : 100 <> 0) by lia.
  assert (H2 : start_ignored (initial_vars (Some 100))
                 (batch_of (fst (scripted (store w)
                                   (fetch_params None
                                      (initial_vars (Some 100))))))
               = false) by reflexivity.
  assert (H3 : fst (count_messages_in_channel scripted 3 (Some 100) None w)
               = Returns 2) by reflexivity.
  repeat (split; [assumption|]).
  exact (start_bound_is_exclusive scripted 3 100 None w 2 H1 H2 H3).
Defined.

(** C8 as stated fails: [--start 5 --end 0] has start >= end, yet the
    validation does not fire: the store is called and the exit status
    is 0. *)
Lemma zero_end_passes_validation :
  main scripted 5 (Some 5) (Some 0) (start_world [])
  = (Returns 0,
     {| store := [];
        trace := [Fetch (Request (Some 5) None 100) (Envelope (Some []));
                  Printed (Total_message_count 0)] |}).
Proof.
  reflexivity.
Qed.

Lemma invalid_range_exits_before_any_fetch_witness :
  let w := start_world script_example in
  5 <> 0 /\ 3 <> 0 /\ 5 >= 3
  /\ main scripted 4 (Some 5) (Some 3) w
     = (Returns 1,
        {| store := script_example; trace := [Printed Start_must_be_less] |}).
Proof.
  intros w.
  assert (H1 : 5 <> 0) by lia.
  assert (H2 : 3 <> 0) by lia.
  assert (H3 : 5 >= 3) by lia.
  repeat (split; [assumption|]).
  exact (invalid_range_exits_before_any_fetch scripted 4 5 3 w H1 H2 H3).
Defined.

(** ** Further properties of the counter *)

Lemma fold_min_below (xs : list Z) (x : Z) : fold_left Z.min xs x <= x.
Proof.
  revert x. induction xs as [|z zs IH]; intros x; simpl; [lia|].
  specialize (IH (Z.min x z)). lia.
Qed.

Lemma py_min_le (l : list Z) (y : Z) : In y l -> py_min l <= y.
Proof.
  destruct l as [|x xs]; [intros []|]. simpl. revert x.
  induction xs as [|z zs IH]; intros x; simpl.
  - intros [->|[]]. lia.
  - intros [->|[->|H]].
    + pose proof (fold_min_below zs (Z.min y z)). lia.
    + pose proof (fold_min_below zs (Z.min x y)). lia.
    + apply IH. now right.
Qed.

Lemma fold_max_above (xs : list Z) (x : Z) : x <= fold_left Z.max xs x.
Proof.
  revert x. induction xs as [|z zs IH]; intros x; simpl; [lia|].
  specialize (IH (Z.max x z)). lia.
Qed.

Lemma py_max_ge (l : list Z) (y : Z) : In y l -> y <= py_max l.
Proof.
  destruct l as [|x xs]; [intros []|]. simpl. revert x.
  induction xs as [|z zs IH]; intros x; simpl.
  - intros [->|[]]. lia.
  - intros [->|[->|H]].
    + pose proof (fold_max_above zs (Z.max y z)). lia.
    + pose proof (fold_max_above zs (Z.max x y)). lia.
    + apply IH. now right.
Qed.

Lemma py_max_In (l : list Z) : l <> [] -> In (py_max l) l.
Proof.
  destruct l as [|x xs]; [congruence|]. intros _. simpl. revert x.
  induction xs as [|y ys IH]; intros x; simpl.
  - now left.
  - destruct (IH (Z.max x y)) as [H|H].
    + rewrite <- H.
      destruct (Z.max_spec x y) as [[_ E]|[_ E]]; rewrite E; auto.
    + auto.
Qed.

Section Events.

Context {St : Type}.
Variable sync : St -> request -> response * St.

Lemma search_events_sound (ranges : list Z) (os e : Z) (w : World St) :
  exists evs,
    trace (snd (search sync ranges os e w)) = trace w ++ evs
    /\ search_events os e ranges evs (fst (search sync ranges os e w)).
Proof.
  revert w. induction ranges as [|range_size rest IH]; intros w; simpl.
  - exists []. rewrite app_nil_r. split; [reflexivity|constructor].
  - destruct (fetch_messages sync (search_params os e range_size) w)
      as [resp w1] eqn:Hf.
    apply fetch_messages_trace in Hf.
    assert (Hmiss : is_miss resp = true ->
      exists evs,
        trace (snd (search sync rest os e w1)) = trace w ++ evs
        /\ search_events os e (range_size :: rest) evs
             (fst (search sync rest os e w1))).
    { intros Hm. destruct (IH w1) as (evs & Ht & Hev).
      exists (Fetch (search_params os e range_size) resp :: evs). split.
      - rewrite Ht, Hf, <- app_assoc. reflexivity.
      - now constructor. }
    destruct resp as [x| |[raw|]]; try (apply Hmiss; reflexivity).
    + eexists. split; [exact Hf|constructor].
    + destruct raw as [|t raw']; [apply Hmiss; reflexivity|].
      cbn [length Nat.ltb Nat.leb fst snd].
      eexists. split; [exact Hf|]. constructor. discriminate.
Qed.

Lemma loop_events_sound (fuel : nat) :
  forall (s e : option Z) (v : loop_vars) (w : World St),
    vars_ok s v ->
    exists evs,
      trace (snd (loop sync fuel s e v w)) = trace w ++ evs
      /\ run_events s e v evs (fst (loop sync fuel s e v w)).
Proof.
  induction fuel as [|fuel IH]; intros s e v w Hok.
  - exists []. simpl. rewrite app_nil_r. split; [reflexivity|constructor].
  - cbn [loop].
    destruct (fetch_messages sync (fetch_params e v) w) as [resp w1] eqn:Hf.
    apply fetch_messages_trace in Hf.
    pose proof (loop_body_inv s e v resp) as Hb.
    destruct (loop_body s e v resp) as [n|v'| |] eqn:Hbody.
    + eexists. split; [exact Hf|]. now constructor.
    + destruct Hb as (_ & Hfirst & _).
      destruct (IH s e v' w1) as (evs & Htr & Hev).
      { intros Hv'. congruence. }
      exists (Fetch (fetch_params e v) resp :: evs). split.
      * rewrite Htr, Hf, <- app_assoc. reflexivity.
      * econstructor; eassumption.
    + destruct (IH None None (initial_vars None) (print Counting_all w1))
        as (evs & Htr & Hev); [apply initial_vars_ok|].
      exists (Fetch (fetch_params e v) resp :: Printed Counting_all :: evs).
      split.
      * rewrite Htr. cbn [print trace]. rewrite Hf, <- !app_assoc.
        reflexivity.
      * now constructor.
    + destruct Hb as (Hi & He & _).
      apply start_ignored_inv in Hi as (Hfirst & Hcs & _).
      destruct (Hok Hfirst) as (Hcur & _). rewrite Hcur in Hcs.
      destruct s as [os|]; [|discriminate].
      destruct e as [e|]; [|discriminate].
      unfold find_actual_start_near_end.
      destruct (search_events_sound search_ranges os e
                  (print Finding_range w1)) as (evs & Htr & Hev).
      exists (Fetch (fetch_params (Some e) v) resp
              :: Printed Finding_range :: evs).
      pose proof (run_find os e v resp evs _ Hbody Hev) as Hrun.
      destruct (search sync search_ranges os e (print Finding_range w1))
        as [[n|x|] w2]; cbn [fst snd] in *;
        (split; [rewrite Htr; cbn [print trace];
                 rewrite Hf, <- !app_assoc; reflexivity
                |exact Hrun]).
Qed.

Lemma count_events (fuel : nat) (s e : option Z) (w : World St)
    (evs : list event) :
  trace (snd (count_messages_in_channel sync fuel s e w)) = trace w ++ evs ->
  run_events s e (initial_vars s) evs
    (fst (count_messages_in_channel sync fuel s e w)).
Proof.
  unfold count_messages_in_channel. intros Htrace.
  destruct (loop_events_sound fuel s e (initial_vars s) w
              (initial_vars_ok s)) as (evs0 & Htr & Hev).
  rewrite Htrace in Htr. apply app_inv_head in Htr. now subst evs0.
Qed.

End Events.

(** What a further iteration knows about the batch it follows. *)
Lemma loop_body_continue (s e : option Z) (v : loop_vars) (raw : list Z) :
  match loop_body s e v (Envelope (Some raw)) with
  | Continue v' =>
    (100 <= length raw)%nat
    /\ start_ignored v raw && truthy e = false
    /\ when e (fun e' => py_max raw >? e') = false
    /\ api_ignoring_start v'
       = (if start_ignored v raw then true else api_ignoring_start v)
    /\ current_start v'
       = Some (if nonempty (filter (in_range s e) raw)
               then py_min (filter (in_range s e) raw)
               else py_min raw)
  | _ => True
  end.
Proof.
  unfold loop_body. rewrite filter_should_include.
  repeat match goal with
         | |- context [if ?b then _ else _] =>
           lazymatch b with
           | context [if _ then _ else _] => fail
           | _ => destruct b eqn:?
           end
         end;
    cbn [api_ignoring_start current_start]; try exact I.
  all: assert (Hlen : (100 <= length raw)%nat)
    by (match goal with
        | H : (length _ <? 100)%nat = false |- _ =>
          apply Nat.ltb_ge in H; exact H
        end).
  all: repeat split; try assumption; try reflexivity.
  all: match goal with
       | H : (0 <? length ?r)%nat && ?x = false |- ?x = false =>
         destruct (length r) eqn:?; [lia|exact H]
       end.
Qed.

Lemma counted_bounded (s e : option Z) (evs : list event) :
  forall acc,
    (length (counted s e acc evs)
     <= length acc + length (messages_fetched evs))%nat.
Proof.
  revert s e. induction evs as [|ev evs IH]; intros s e acc.
  - simpl. lia.
  - destruct ev as [req resp|line].
    + rewrite counted_fetch. specialize (IH s e
        (acc ++ filter (in_range s e) (batch_of resp))).
      change (messages_fetched (Fetch req resp :: evs))
        with (batch_of resp ++ messages_fetched evs).
      rewrite !length_app in *.
      pose proof (filter_length_le (in_range s e) (batch_of resp)). lia.
    + change (messages_fetched (Printed line :: evs))
        with (messages_fetched evs).
      destruct line; cbn [counted].
      * specialize (IH s e []). simpl in IH. lia.
      * specialize (IH None None []). simpl in IH. lia.
      * apply IH.
      * apply IH.
Qed.

Lemma search_events_count (os e : Z) (ranges : list Z) (evs : list event)
    (r : outcome) :
  search_events os e ranges evs r ->
  all_requests (fun req => req_count req = 100) evs.
Proof.
  unfold all_requests.
  induction 1; cbn [requests flat_map app]; repeat constructor.
  assumption.
Qed.

Lemma run_events_count (s e : option Z) (v : loop_vars) (evs : list event)
    (r : outcome) :
  run_events s e v evs r ->
  all_requests (fun req => req_count req = 100) evs.
Proof.
  unfold all_requests.
  induction 1; cbn [requests flat_map app]; repeat constructor;
    try assumption.
  now apply search_events_count in H0.
Qed.

Lemma in_range_unbounded (l : list Z) : filter (in_range None None) l = l.
Proof.
  induction l as [|t l IH]; simpl; [reflexivity|]. now rewrite IH.
Qed.

Section Batches.

Context {St : Type}.
Variable sync : St -> request -> response * St.

(** X1: when the first response has no messages for the channel (the
    channel is missing from the result, or its list is empty), counting
    returns 0 after that single fetch, whatever the bounds. *)
Theorem no_messages_counts_zero (fuel : nat) (s e : option Z)
    (w : World St) :
  fst (sync (store w) (fetch_params e (initial_vars s))) = Envelope None
  \/ fst (sync (store w) (fetch_params e (initial_vars s)))
     = Envelope (Some []) ->
  count_messages_in_channel sync (S fuel) s e w
  = (Returns 0,
     snd (fetch_messages sync (fetch_params e (initial_vars s)) w)).
Proof.
  intros H. unfold count_messages_in_channel. cbn [loop].
  rewrite fetch_messages_eq.
  destruct H as [-> | ->]; [reflexivity|].
  cbn [snd].
  replace (loop_body s e (initial_vars s) (Envelope (Some [])))
    with (Break 0); [reflexivity|].
  unfold loop_body, start_ignored, when. cbn.
  destruct s as [z|]; [destruct (z =? 0)|]; reflexivity.
Qed.

(** X2: at any iteration, a batch of fewer than 100 messages that does not
    send the counter into a sub-procedure ends the loop: the messages of
    the batch that are in range are added to the count, which is
    returned, and nothing more is fetched. *)
Theorem short_batch_ends_loop (fuel : nat) (s e : option Z)
    (v : loop_vars) (w : World St) (raw : list Z) :
  fst (sync (store w) (fetch_params e v)) = Envelope (Some raw) ->
  (length raw < 100)%nat ->
  start_ignored v raw && truthy e = false ->
  loop sync (S fuel) s e v w
  = (Returns (total_count v + length (filter (in_range s e) raw)),
     snd (fetch_messages sync (fetch_params e v) w)).
Proof.
  intros Hresp Hlen Hno. cbn [loop]. rewrite fetch_messages_eq, Hresp.
  cbn [snd].
  pose proof (loop_body_inv s e v (Envelope (Some raw))) as Hb.
  destruct (loop_body s e v (Envelope (Some raw))) as [n|v'| |].
  - cbn [batch_of] in Hb. now rewrite Hb.
  - destruct Hb as (_ & _ & raw0 & c & [= <-] & Hge & _). lia.
  - destruct Hb as (Hi & He). cbn [batch_of] in Hi.
    apply truthy_when in He. rewrite Hi, He in Hno. discriminate.
  - destruct Hb as (Hi & He & _). cbn [batch_of] in Hi.
    rewrite Hi, He in Hno. discriminate.
Qed.

(** X3: every request that counting sends to the store, in the loop, in
    the full scan and in the bisection, asks for 100 messages. *)
Theorem every_request_asks_for_100 (fuel : nat) (s e : option Z)
    (w : World St) :
  exists evs,
    trace (snd (count_messages_in_channel sync fuel s e w)) = trace w ++ evs
    /\ all_requests (fun req => req_count req = 100) evs.
Proof.
  unfold count_messages_in_channel.
  destruct (loop_events_sound sync fuel s e (initial_vars s) w
              (initial_vars_ok s)) as (evs & Htr & Hev).
  exists evs. split; [exact Htr|]. eapply run_events_count. exact Hev.
Qed.

(** X6: in a run that enters no sub-procedure, with any bounds, the count
    returned is the number of fetched messages in the caller's range,
    over all the batches of the run. *)
Theorem count_is_messages_in_range (fuel : nat) (s e : option Z)
    (w w' : World St) (n : nat) (evs : list event) :
  count_messages_in_channel sync fuel s e w = (Returns n, w') ->
  trace w' = trace w ++ evs ->
  entries evs = 0%nat ->
  n = length (filter (in_range s e) (messages_fetched evs)).
Proof.
  intros Hrun Htrace Hent. unfold count_messages_in_channel in Hrun.
  destruct (loop_run sync fuel s e (initial_vars s) w (initial_vars_ok _))
    as (evs0 & Htr & Hc & _).
  rewrite Hrun in Htr, Hc. cbn [fst snd] in Htr, Hc.
  rewrite Htrace in Htr. apply app_inv_head in Htr. subst evs0.
  specialize (Hc [] eq_refl). now rewrite counted_no_entry in Hc.
Qed.

(** X7: on every path (loop, full scan, bisection) the count returned is
    at most the number of messages the store returned during the run. *)
Theorem count_at_most_fetched (fuel : nat) (s e : option Z) (w : World St) :
  exists evs,
    trace (snd (count_messages_in_channel sync fuel s e w)) = trace w ++ evs
    /\ forall n,
         fst (count_messages_in_channel sync fuel s e w) = Returns n ->
         (n <= length (messages_fetched evs))%nat.
Proof.
  unfold count_messages_in_channel.
  destruct (loop_run sync fuel s e (initial_vars s) w (initial_vars_ok _))
    as (evs & Htr & Hc & _).
  exists evs. split; [exact Htr|]. intros n Hn.
  specialize (Hc [] eq_refl). rewrite Hn in Hc. subst n.
  apply (counted_bounded s e evs []).
Qed.

(** X8: the full scan returns the number of all the messages it fetched. *)
Theorem full_scan_counts_everything (fuel : nat) (w w' : World St)
    (n : nat) :
  count_all_messages sync fuel w = (Returns n, w') ->
  exists evs,
    trace w' = trace w ++ Printed Counting_all :: evs
    /\ entries evs = 0%nat
    /\ n = length (messages_fetched evs).
Proof.
  unfold count_all_messages, count_messages_in_channel. intros Hrun.
  destruct (loop_run sync fuel None None (initial_vars None)
              (print Counting_all w) (initial_vars_ok _))
    as (evs & Htr & Hc & _ & H0).
  rewrite Hrun in Htr, Hc. cbn [fst snd] in Htr, Hc.
  exists evs. split; [|split].
  - rewrite Htr. cbn [print trace]. now rewrite <- app_assoc.
  - apply H0. auto.
  - specialize (Hc [] eq_refl).
    rewrite counted_no_entry, in_range_unbounded in Hc by (apply H0; auto).
    exact Hc.
Qed.

End Batches.

(** ** Invariants of runs *)

Lemma continue_facts (s e : option Z) (v v' : loop_vars) (resp : response) :
  loop_body s e v resp = Continue v' ->
  exists raw,
    resp = Envelope (Some raw)
    /\ first_iteration v' = false
    /\ (100 <= length raw)%nat
    /\ start_ignored v raw && truthy e = false
    /\ when e (fun e' => py_max raw >? e') = false
    /\ api_ignoring_start v'
       = (if start_ignored v raw then true else api_ignoring_start v)
    /\ current_start v'
       = Some (if nonempty (filter (in_range s e) raw)
               then py_min (filter (in_range s e) raw)
               else py_min raw).
Proof.
  intros Hbody.
  pose proof (loop_body_inv s e v resp) as Hb. rewrite Hbody in Hb.
  destruct Hb as (_ & Hfirst & raw & c & -> & _).
  pose proof (loop_body_continue s e v raw) as Hc. rewrite Hbody in Hc.
  exists raw. split; [reflexivity|]. split; [exact Hfirst|exact Hc].
Qed.

Lemma fetch_params_end (e : option Z) (v : loop_vars) :
  (api_ignoring_start v = true -> truthy e = false) ->
  req_end (fetch_params e v) = if truthy e then e else None.
Proof.
  intros H. unfold fetch_params. cbn [req_end].
  destruct (truthy e) eqn:He; [|reflexivity].
  destruct (api_ignoring_start v); [|reflexivity].
  now specialize (H eq_refl).
Qed.

Lemma search_events_end (os e : Z) (ranges : list Z) (evs : list event)
    (r : outcome) :
  search_events os e ranges evs r ->
  all_requests (fun req => req_end req = Some e) evs.
Proof.
  unfold all_requests.
  induction 1; cbn [requests flat_map app]; repeat constructor.
  assumption.
Qed.

Lemma run_events_end (s e : option Z) (v : loop_vars) (evs : list event)
    (r : outcome) :
  run_events s e v evs r ->
  (api_ignoring_start v = true -> truthy e = false) ->
  ~ In (Printed Counting_all) evs ->
  all_requests (fun req => req_end req = if truthy e then e else None) evs.
Proof.
  unfold all_requests.
  induction 1 as [s e v|s e v resp n Hbody|s e v v' resp evs r Hbody Hrun IH
                  |s e v resp evs r Hbody Hrun IH|os e' v resp evs r Hbody Hs];
    intros Hinv Hno; cbn [requests flat_map app].
  - constructor.
  - constructor; [now apply fetch_params_end|constructor].
  - constructor; [now apply fetch_params_end|].
    apply IH.
    + apply continue_facts in Hbody
        as (raw & _ & _ & _ & Hsub & _ & Hapi & _).
      rewrite Hapi. intros Hv'.
      destruct (start_ignored v raw); [exact Hsub|auto].
    + intros Hin. apply Hno. now right.
  - exfalso. apply Hno. right. now left.
  - pose proof (loop_body_inv (Some os) (Some e') v resp) as Hb.
    rewrite Hbody in Hb. destruct Hb as (_ & He & _).
    constructor; [now apply fetch_params_end|].
    rewrite He. eapply search_events_end. exact Hs.
Qed.

Lemma run_events_head (s e : option Z) (v : loop_vars) (req : request)
    (resp : response) (evs : list event) (r : outcome) :
  run_events s e v (Fetch req resp :: evs) r ->
  req = fetch_params e v.
Proof.
  inversion 1; reflexivity.
Qed.

Lemma run_events_full_batches (s e : option Z) (v : loop_vars)
    (evs : list event) (r : outcome) :
  run_events s e v evs r ->
  entries evs = 0%nat ->
  forall evs1 req resp evs2,
    evs = evs1 ++ Fetch req resp :: evs2 ->
    evs2 <> [] ->
    (100 <= length (batch_of resp))%nat
    /\ when e (fun e' => py_max (batch_of resp) >? e') = false.
Proof.
  induction 1 as [s e v|s e v resp n Hbody|s e v v' resp evs r Hbody Hrun IH
                  |s e v resp evs r Hbody Hrun IH|os e' v resp evs r Hbody Hs];
    intros Hent evs1 req0 resp0 evs2 Hsplit Hne; try discriminate Hent.
  - now destruct evs1.
  - destruct evs1 as [|a [|b evs1]]; try discriminate Hsplit.
    injection Hsplit as _ _ <-. congruence.
  - destruct evs1 as [|a evs1].
    + injection Hsplit as _ <- _.
      apply continue_facts in Hbody as (raw & -> & _ & Hlen & _ & Hend & _).
      cbn [batch_of]. auto.
    + injection Hsplit as _ Hsplit. eapply IH; eauto.
Qed.

Lemma run_events_next_cursor (s e : option Z) (v : loop_vars)
    (evs : list event) (r : outcome) :
  run_events s e v evs r ->
  entries evs = 0%nat ->
  forall evs1 req1 resp1 req2 resp2 evs2,
    evs = evs1 ++ Fetch req1 resp1 :: Fetch req2 resp2 :: evs2 ->
    exists c,
      In c (batch_of resp1)
      /\ (forall t, In t (batch_of resp1) -> in_range s e t = true -> c <= t)
      /\ req_start req2 = (if c =? 0 then None else Some c).
Proof.
  induction 1 as [s e v|s e v resp n Hbody|s e v v' resp evs r Hbody Hrun IH
                  |s e v resp evs r Hbody Hrun IH|os e' v resp evs r Hbody Hs];
    intros Hent evs1 req1 resp1 req2 resp2 evs2 Hsplit;
    try discriminate Hent.
  - now destruct evs1.
  - destruct evs1 as [|a [|b evs1]]; discriminate Hsplit.
  - destruct evs1 as [|a evs1].
    + injection Hsplit as _ <- Hevs. subst evs.
      apply run_events_head in Hrun. subst req2.
      apply continue_facts in Hbody
        as (raw & -> & _ & Hlen & _ & _ & _ & Hcur).
      cbn [batch_of].
      set (kept := filter (in_range s e) raw) in *.
      exists (if nonempty kept then py_min kept else py_min raw).
      split; [|split].
      * destruct (nonempty kept) eqn:Hk.
        -- apply nonempty_true, py_min_In in Hk.
           now apply filter_In in Hk as [Hk _].
        -- apply py_min_In. intros ->. simpl in Hlen. lia.
      * intros t Ht Hr.
        assert (Hin : In t kept) by (apply filter_In; auto).
        destruct (nonempty kept) eqn:Hk.
        -- now apply py_min_le.
        -- destruct kept; [destruct Hin|discriminate Hk].
      * unfold fetch_params. cbn [req_start]. rewrite Hcur. simpl.
        now destruct (_ =? 0).
    + injection Hsplit as _ Hsplit. eapply IH; eauto.
Qed.

Lemma search_events_no_print (os e : Z) (ranges : list Z)
    (evs : list event) (r : outcome) :
  search_events os e ranges evs r ->
  forall line, ~ In (Printed line) evs.
Proof.
  induction 1 as [|range_size rest x|range_size rest raw Hraw
                  |range_size rest resp evs r Hmiss Hs IH];
    intros line Hin.
  - destruct Hin.
  - destruct Hin as [Hin|[]]. discriminate Hin.
  - destruct Hin as [Hin|[]]. discriminate Hin.
  - destruct Hin as [Hin|Hin]; [discriminate Hin|].
    now apply (IH line).
Qed.

Lemma run_events_no_print (s e : option Z) (v : loop_vars)
    (evs : list event) (r : outcome) :
  run_events s e v evs r ->
  first_iteration v = false \/ truthy (current_start v) = false ->
  forall line, ~ In (Printed line) evs.
Proof.
  induction 1 as [s e v|s e v resp n Hbody|s e v v' resp evs r Hbody Hrun IH
                  |s e v resp evs r Hbody Hrun IH|os e' v resp evs r Hbody Hs];
    intros Hplain line.
  - intros [].
  - intros [Hin|[]]. discriminate Hin.
  - intros [Hin|Hin]; [discriminate Hin|].
    apply continue_facts in Hbody as (raw & _ & Hfirst & _).
    now apply (IH (or_introl Hfirst) line).
  - pose proof (loop_body_inv s e v resp) as Hb. rewrite Hbody in Hb.
    destruct Hb as (Hi & _).
    apply start_ignored_inv in Hi as (Hf & Hc & _).
    destruct Hplain; congruence.
  - pose proof (loop_body_inv (Some os) (Some e') v resp) as Hb.
    rewrite Hbody in Hb. destruct Hb as (Hi & _).
    apply start_ignored_inv in Hi as (Hf & Hc & _).
    destruct Hplain; congruence.
Qed.

Lemma run_events_entry (s e : option Z) (v : loop_vars) (evs : list event)
    (r : outcome) :
  run_events s e v evs r ->
  forall evs1 line evs2,
    evs = evs1 ++ Printed line :: evs2 ->
    exists raw,
      evs1 = [Fetch (fetch_params e v) (Envelope (Some raw))]
      /\ start_ignored v raw = true
      /\ truthy e = true
      /\ line = (if when e (fun e' => e' >? py_max raw + 10 ^ 15)
                 then Counting_all else Finding_range)
      /\ forall line', ~ In (Printed line') evs2.
Proof.
  intros Hrun evs1 line evs2 Hsplit.
  assert (Hin : In (Printed line) evs)
    by (rewrite Hsplit; apply in_elt).
  destruct Hrun as [s e v|s e v resp n Hbody|s e v v' resp evs r Hbody Hrun
                    |s e v resp evs r Hbody Hrun|os e' v resp evs r Hbody Hs].
  - destruct Hin.
  - destruct Hin as [Hin|[]]. discriminate Hin.
  - exfalso. destruct Hin as [Hin|Hin]; [discriminate Hin|].
    apply continue_facts in Hbody as (raw & _ & Hfirst & _).
    exact (run_events_no_print _ _ _ _ _ Hrun (or_introl Hfirst) line Hin).
  - pose proof (loop_body_inv s e v resp) as Hb. rewrite Hbody in Hb.
    destruct Hb as (Hi & Hfar).
    pose proof (run_events_no_print _ _ _ _ _ Hrun (or_intror eq_refl))
      as Hnone.
    destruct (start_ignored_inv _ _ Hi) as (_ & _ & Hraw).
    destruct resp as [x| |[raw|]]; cbn [batch_of] in *; try congruence.
    destruct evs1 as [|a [|b evs1]].
    + discriminate Hsplit.
    + injection Hsplit as <- <- <-. exists raw. rewrite Hfar.
      repeat split; auto. eapply truthy_when; eassumption.
    + injection Hsplit as _ _ Hsplit. exfalso.
      apply (Hnone line). rewrite Hsplit. apply in_elt.
  - pose proof (loop_body_inv (Some os) (Some e') v resp) as Hb.
    rewrite Hbody in Hb. destruct Hb as (Hi & He & Hfar).
    pose proof (search_events_no_print _ _ _ _ _ Hs) as Hnone.
    destruct (start_ignored_inv _ _ Hi) as (_ & _ & Hraw).
    destruct resp as [x| |[raw|]]; cbn [batch_of] in *; try congruence.
    destruct evs1 as [|a [|b evs1]].
    + discriminate Hsplit.
    + injection Hsplit as <- <- <-. exists raw. rewrite Hfar.
      repeat split; auto.
    + injection Hsplit as _ _ Hsplit. exfalso.
      apply (Hnone line). rewrite Hsplit. apply in_elt.
Qed.

Lemma when_true (x : option Z) (p : Z -> bool) :
  when x p = true -> exists z, x = Some z /\ z <> 0 /\ p z = true.
Proof.
  destruct x as [z|]; simpl; [|discriminate].
  intros [Hz Hp]%andb_true_iff. exists z. repeat split; auto.
  apply negb_true_iff in Hz. now apply Z.eqb_neq.
Qed.

Lemma search_events_requests (os e : Z) (ranges : list Z)
    (evs : list event) (r : outcome) :
  search_events os e ranges evs r ->
  Forall (fun size => 0 <= size <= 10 ^ 10) ranges ->
  (length evs <= length ranges)%nat
  /\ Forall (fun ev =>
               exists resp c,
                 ev = Fetch (Request (Some c) (Some e) 100) resp
                 /\ os <= c /\ e - 10 ^ 10 <= c /\ c <= Z.max os e)
       evs
  /\ r <> Out_of_fuel.
Proof.
  assert (Hreq : forall size resp,
             0 <= size <= 10 ^ 10 ->
             exists resp' c,
               Fetch (search_params os e size) resp
               = Fetch (Request (Some c) (Some e) 100) resp'
               /\ os <= c /\ e - 10 ^ 10 <= c /\ c <= Z.max os e).
  { intros size resp Hsize. unfold search_params.
    exists resp. eexists. split; [reflexivity|].
    destruct (e - size <? os) eqn:E; lia. }
  induction 1 as [|range_size rest x|range_size rest raw Hraw
                  |range_size rest resp evs r Hmiss Hs IH];
    intros Hranges.
  - repeat split; [simpl; lia|constructor|discriminate].
  - inversion Hranges; subst.
    repeat split; [simpl; lia|repeat constructor; auto|discriminate].
  - inversion Hranges; subst.
    repeat split; [simpl; lia|repeat constructor; auto|discriminate].
  - inversion Hranges; subst.
    destruct IH as (Hlen & Hall & Hr); [assumption|].
    repeat split; [simpl; lia|constructor; auto|exact Hr].
Qed.

Lemma search_ranges_bounds :
  Forall (fun size => 0 <= size <= 10 ^ 10) search_ranges.
Proof.
  repeat constructor; vm_compute; discriminate.
Qed.

Lemma probed_length {St : Type} (sync : St -> request -> response * St)
    (os e : Z) (ranges : list Z) (w w' : World St) (resps : list response) :
  probed sync os e ranges w resps w' -> length resps = length ranges.
Proof.
  induction 1; simpl; congruence.
Qed.

Section Invariants.

Context {St : Type}.
Variable sync : St -> request -> response * St.

(** X4: unless the full scan is entered, every request of a run carries
    the caller's end when it is set (not zero), and no end otherwise; so
    the test that drops a distant end from the request (line 163) never
    takes effect.  This covers the requests of the bisection. *)
Theorem end_is_sent_with_every_request (fuel : nat) (s e : option Z)
    (w : World St) (evs : list event) :
  trace (snd (count_messages_in_channel sync fuel s e w)) = trace w ++ evs ->
  ~ In (Printed Counting_all) evs ->
  all_requests (fun req => req_end req = if truthy e then e else None) evs.
Proof.
  intros Htrace Hno. apply count_events in Htrace.
  eapply run_events_end; [exact Htrace| |exact Hno].
  discriminate.
Qed.

(** X5: in a run that enters no sub-procedure, a batch that is followed
    by another fetch has at least 100 messages, and when an end is set
    none of its messages is above the end: the loop never goes on after
    a short batch or after a batch that reaches past the end. *)
Theorem batches_before_the_last (fuel : nat) (s e : option Z)
    (w : World St) (evs evs1 evs2 : list event) (req : request)
    (resp : response) :
  trace (snd (count_messages_in_channel sync fuel s e w)) = trace w ++ evs ->
  entries evs = 0%nat ->
  evs = evs1 ++ Fetch req resp :: evs2 ->
  evs2 <> [] ->
  (100 <= length (batch_of resp))%nat
  /\ forall e', e = Some e' -> e' <> 0 ->
       Forall (fun t => t <= e') (batch_of resp).
Proof.
  intros Htrace Hent Hsplit Hne. apply count_events in Htrace.
  destruct (run_events_full_batches _ _ _ _ _ Htrace Hent _ _ _ _ Hsplit Hne)
    as (Hlen & Hend).
  split; [exact Hlen|]. intros e' -> He'.
  rewrite when_some in Hend by assumption.
  apply Forall_forall. intros t Ht. apply py_max_ge in Ht. lia.
Qed.

(** X13: in a run that enters no sub-procedure, the start of each request
    after the first is taken from the batch just fetched: it is one of
    its timetokens, at most every message of that batch that was counted
    (a timetoken 0 is sent as no start at all). *)
Theorem next_cursor_comes_from_the_batch (fuel : nat) (s e : option Z)
    (w : World St) (evs evs1 evs2 : list event) (req1 req2 : request)
    (resp1 resp2 : response) :
  trace (snd (count_messages_in_channel sync fuel s e w)) = trace w ++ evs ->
  entries evs = 0%nat ->
  evs = evs1 ++ Fetch req1 resp1 :: Fetch req2 resp2 :: evs2 ->
  exists c,
    In c (batch_of resp1)
    /\ (forall t, In t (batch_of resp1) -> in_range s e t = true -> c <= t)
    /\ req_start req2 = (if c =? 0 then None else Some c).
Proof.
  intros Htrace Hent Hsplit. apply count_events in Htrace.
  eapply run_events_next_cursor; eassumption.
Qed.

(** X14: a run enters a sub-procedure only directly after its first
    fetch, and only when the start and the end are both set (not zero),
    the batch of that fetch is not empty and its oldest message is more
    than [10**14] above the start.  It is the full scan when the end is
    more than [10**15] above the newest message of the batch, and the
    bisection otherwise; nothing is entered afterwards. *)
Theorem sub_procedure_only_after_ignored_start (fuel : nat) (s e : option Z)
    (w : World St) (evs evs1 evs2 : list event) (line : console_line) :
  trace (snd (count_messages_in_channel sync fuel s e w)) = trace w ++ evs ->
  evs = evs1 ++ Printed line :: evs2 ->
  exists s' e' raw,
    s = Some s' /\ s' <> 0 /\ e = Some e' /\ e' <> 0
    /\ evs1 = [Fetch (Request (Some s') (Some e') 100) (Envelope (Some raw))]
    /\ raw <> []
    /\ s' < py_min raw - 10 ^ 14
    /\ line = (if e' >? py_max raw + 10 ^ 15
               then Counting_all else Finding_range)
    /\ forall line', ~ In (Printed line') evs2.
Proof.
  intros Htrace Hsplit. apply count_events in Htrace.
  destruct (run_events_entry _ _ _ _ _ Htrace _ _ _ Hsplit)
    as (raw & Hevs1 & Hi & He & Hline & Hnone).
  pose proof Hi as Hi'. unfold start_ignored in Hi'.
  cbn [initial_vars first_iteration current_start andb] in Hi'.
  apply when_true in Hi' as (s' & -> & Hs' & Hcond).
  apply andb_true_iff in Hcond as (Hpos & Hlt).
  destruct e as [e'|]; [|discriminate He].
  pose proof (proj1 (truthy_some e') He) as He'.
  exists s', e', raw. repeat split; auto.
  - rewrite Hevs1. do 2 f_equal. unfold fetch_params.
    cbn [initial_vars current_start api_ignoring_start andb negb].
    rewrite He, (proj2 (truthy_some s') Hs'). reflexivity.
  - intros ->. discriminate Hpos.
  - lia.
  - rewrite when_some in Hline by assumption. exact Hline.
Qed.

(** X9: the bisection makes at most five fetches, and never runs out of
    fuel; each of its requests has the end as its end, asks for 100
    messages, and has a start that is not below the original start, not
    more than [10**10] below the end, and not above both. *)
Theorem bisection_stays_in_its_window (os e : Z) (w : World St) :
  exists evs,
    trace (snd (find_actual_start_near_end sync os e w))
    = trace w ++ Printed Finding_range :: evs
    /\ (length evs <= 5)%nat
    /\ Forall (fun ev =>
                 exists resp c,
                   ev = Fetch (Request (Some c) (Some e) 100) resp
                   /\ os <= c /\ e - 10 ^ 10 <= c /\ c <= Z.max os e)
         evs
    /\ fst (find_actual_start_near_end sync os e w) <> Out_of_fuel.
Proof.
  unfold find_actual_start_near_end.
  destruct (search_events_sound sync search_ranges os e
              (print Finding_range w)) as (evs & Htr & Hev).
  exists evs. split.
  - rewrite Htr. cbn [print trace]. now rewrite <- app_assoc.
  - exact (search_events_requests _ _ _ _ _ Hev search_ranges_bounds).
Qed.

(** X10: when none of the five fetches of the bisection returns a
    message (each gives an error envelope, a result without the channel,
    or an empty list), the bisection returns 0 after these five
    fetches. *)
Theorem bisection_without_messages_returns_zero (os e : Z)
    (w w' : World St) (resps : list response) :
  probed sync os e search_ranges (print Finding_range w) resps w' ->
  Forall (fun r => is_miss r = true) resps ->
  find_actual_start_near_end sync os e w = (Returns 0, w')
  /\ length resps = 5%nat.
Proof.
  intros Hp Hmiss. split.
  - unfold find_actual_start_near_end.
    rewrite <- (app_nil_r search_ranges) at 1.
    now rewrite (search_after_misses sync os e search_ranges _ w' resps Hp
                   Hmiss []).
  - now rewrite (probed_length sync os e _ _ _ _ Hp).
Qed.

End Invariants.

(** ** The order of the messages in a batch *)

From Stdlib Require Import Permutation.

Lemma py_min_permutation (l l' : list Z) :
  Permutation l l' -> py_min l = py_min l'.
Proof.
  intros Hp. destruct l as [|x xs].
  - now apply Permutation_nil in Hp as ->.
  - assert (Hl' : l' <> []).
    { intros ->. apply Permutation_sym, Permutation_nil in Hp.
      discriminate Hp. }
    assert (Hl : x :: xs <> []) by discriminate.
    pose proof (py_min_le l' _ (Permutation_in _ Hp (py_min_In _ Hl))).
    pose proof (py_min_le (x :: xs) _
                  (Permutation_in _ (Permutation_sym Hp) (py_min_In _ Hl'))).
    lia.
Qed.

Lemma py_max_permutation (l l' : list Z) :
  Permutation l l' -> py_max l = py_max l'.
Proof.
  intros Hp. destruct l as [|x xs].
  - now apply Permutation_nil in Hp as ->.
  - assert (Hl' : l' <> []).
    { intros ->. apply Permutation_sym, Permutation_nil in Hp.
      discriminate Hp. }
    assert (Hl : x :: xs <> []) by discriminate.
    pose proof (py_max_ge l' _ (Permutation_in _ Hp (py_max_In _ Hl))).
    pose proof (py_max_ge (x :: xs) _
                  (Permutation_in _ (Permutation_sym Hp) (py_max_In _ Hl'))).
    lia.
Qed.

Lemma filter_permutation (f : Z -> bool) (l l' : list Z) :
  Permutation l l' -> Permutation (filter f l) (filter f l').
Proof.
  induction 1 as [|x l l' _ IH|x y l|l l' l'' _ IH1 _ IH2]; simpl.
  - constructor.
  - destruct (f x); [now constructor|exact IH].
  - destruct (f x), (f y); try reflexivity. constructor.
  - now transitivity (filter f l').
Qed.

Lemma nonempty_permutation (l l' : list Z) :
  Permutation l l' -> nonempty l = nonempty l'.
Proof.
  intros Hp. apply Permutation_length in Hp.
  destruct l, l'; try reflexivity; discriminate Hp.
Qed.

(** X11: what the counter does with a batch does not depend on the order
    of the messages in it: an iteration of the loop decides the same
    (same count, same next cursor, same sub-procedure), and the
    bisection counts the same number of messages. *)
Theorem batch_order_is_irrelevant (s e : option Z) (v : loop_vars)
    (os e' : Z) (raw raw' : list Z) :
  Permutation raw raw' ->
  loop_body s e v (Envelope (Some raw)) = loop_body s e v (Envelope (Some raw'))
  /\ start_ignored v raw = start_ignored v raw'
  /\ length (filter (match_criteria os e') raw)
     = length (filter (match_criteria os e') raw').
Proof.
  intros Hp.
  assert (Hlen : length raw = length raw') by now apply Permutation_length.
  assert (Hmin : py_min raw = py_min raw') by now apply py_min_permutation.
  assert (Hmax : py_max raw = py_max raw') by now apply py_max_permutation.
  assert (Hflen : forall f, length (filter f raw) = length (filter f raw')).
  { intros f. now apply Permutation_length, filter_permutation. }
  assert (Hfmin : forall f, py_min (filter f raw) = py_min (filter f raw')).
  { intros f. now apply py_min_permutation, filter_permutation. }
  assert (Hfne : forall f, nonempty (filter f raw) = nonempty (filter f raw')).
  { intros f. now apply nonempty_permutation, filter_permutation. }
  split; [|split].
  - unfold loop_body, start_ignored. cbv zeta.
    rewrite Hlen, Hmin, Hmax.
    rewrite !Hflen, !Hfmin, !Hfne. reflexivity.
  - unfold start_ignored. now rewrite Hlen, Hmin.
  - apply Hflen.
Qed.

Section Exit_status.

Context {St : Type}.
Variable sync : St -> request -> response * St.


End Exit_status.

Section Empty_range.

Context {St : Type}.
Variable sync : St -> request -> response * St.

(** X15: called with a start and an end that are both set and with
    start >= end, counting returns 0 unless it enters the full scan: no
    timetoken is above the start and at most the end. *)
Theorem inverted_range_counts_nothing (fuel : nat) (s e : Z)
    (w w' : World St) (n : nat) (evs : list event) :
  s <> 0 -> e <> 0 -> s >= e ->
  count_messages_in_channel sync fuel (Some s) (Some e) w = (Returns n, w') ->
  trace w' = trace w ++ evs ->
  ~ In (Printed Counting_all) evs ->
  n = 0%nat.
Proof.
  intros Hs He Hge Hrun Htrace Hno. unfold count_messages_in_channel in Hrun.
  destruct (loop_run sync fuel (Some s) (Some e) (initial_vars (Some s)) w
              (initial_vars_ok _)) as (evs0 & Htr & Hc & _).
  rewrite Hrun in Htr, Hc. cbn [fst snd] in Htr, Hc.
  rewrite Htrace in Htr. apply app_inv_head in Htr. subst evs0.
  specialize (Hc [] eq_refl). subst n.
  assert (H : Forall (fun _ => False) (counted (Some s) (Some e) [] evs)).
  { apply counted_forall; [|constructor|exact Hno].
    intros t Ht. pose proof (in_range_start s _ t Hs Ht).
    pose proof (in_range_end _ e t He Ht). lia. }
  destruct (counted (Some s) (Some e) [] evs); [reflexivity|].
  now inversion H.
Qed.

End Empty_range.

(** ** Concrete runs for the further properties *)

Lemma no_messages_counts_zero_witness :
  let w := start_world [] in
  (fst (scripted (store w)
          (fetch_params (Some 200) (initial_vars (Some 100))))
   = Envelope None
   \/ fst (scripted (store w)
             (fetch_params (Some 200) (initial_vars (Some 100))))
      = Envelope (Some []))
  /\ count_messages_in_channel scripted 2 (Some 100) (Some 200) w
     = (Returns 0,
        {| store := [];
           trace := [Fetch (Request (Some 100) (Some 200) 100)
                       (Envelope (Some []))] |}).
Proof.
  intros w.
  assert (H : fst (scripted (store w)
                     (fetch_params (Some 200) (initial_vars (Some 100))))
              = Envelope None
              \/ fst (scripted (store w)
                        (fetch_params (Some 200) (initial_vars (Some 100))))
                 = Envelope (Some [])) by (right; reflexivity).
  split; [exact H|].
  exact (no_messages_counts_zero scripted 1 (Some 100) (Some 200) w H).
Defined.

Lemma short_batch_ends_loop_witness :
  let v := {| total_count := 7;
              current_start := Some 300;
              first_iteration := false;
              previous_oldest_timetoken := Some 300;
              api_ignoring_start := false |} in
  let w := start_world [Envelope (Some [50; 150; 160])] in
  let raw := [50; 150; 160] in
  fst (scripted (store w) (fetch_params None v)) = Envelope (Some raw)
  /\ (length raw < 100)%nat
  /\ start_ignored v raw && truthy None = false
  /\ loop scripted 3 (Some 100) None v w
     = (Returns 9,
        {| store := [];
           trace := [Fetch (Request (Some 300) None 100)
                       (Envelope (Some raw))] |}).
Proof.
  intros v w raw.
  assert (H1 : fst (scripted (store w) (fetch_params None v))
               = Envelope (Some raw)) by reflexivity.
  assert (H2 : (length raw < 100)%nat) by (simpl; lia).
  assert (H3 : start_ignored v raw && truthy None = false) by reflexivity.
  repeat (split; [assumption|]).
  exact (short_batch_ends_loop scripted 2 (Some 100) None v w raw H1 H2 H3).
Defined.

Lemma end_is_sent_with_every_request_witness :
  let w := start_world script_bisection_error in
  let evs :=
    trace (snd (count_messages_in_channel scripted 5 (Some 1) (Some 10) w)) in
  trace (snd (count_messages_in_channel scripted 5 (Some 1) (Some 10) w))
  = trace w ++ evs
  /\ ~ In (Printed Counting_all) evs
  /\ length (requests evs) = 3%nat
  /\ all_requests (fun req => req_end req = Some 10) evs.
Proof.
  intros w evs.
  assert (H1 : trace (snd (count_messages_in_channel scripted 5 (Some 1)
                             (Some 10) w)) = trace w ++ evs) by reflexivity.
  assert (H2 : ~ In (Printed Counting_all) evs).
  { vm_compute. intros [H|[H|[H|[H|[]]]]]; discriminate H. }
  repeat (split; [assumption|]). split; [reflexivity|].
  exact (end_is_sent_with_every_request scripted 5 (Some 1) (Some 10) w evs
           H1 H2).
Defined.

Lemma batches_before_the_last_witness :
  let w := start_world script_pages in
  let f1 := Fetch (Request None (Some 1000) 100)
              (Envelope (Some (tokens_from 201 100))) in
  let f2 := Fetch (Request (Some 201) (Some 1000) 100)
              (Envelope (Some (tokens_from 101 100))) in
  let f3 := Fetch (Request (Some 101) (Some 1000) 100)
              (Envelope (Some [50; 60])) in
  trace (snd (count_messages_in_channel scripted 5 None (Some 1000) w))
  = trace w ++ [f1; f2; f3]
  /\ entries [f1; f2; f3] = 0%nat
  /\ [f1; f2; f3]
     = [f1] ++ Fetch (Request (Some 201) (Some 1000) 100)
                 (Envelope (Some (tokens_from 101 100))) :: [f3]
  /\ [f3] <> []
  /\ (100 <= length (tokens_from 101 100))%nat
  /\ forall e', Some 1000 = Some e' -> e' <> 0 ->
       Forall (fun t => t <= e') (tokens_from 101 100).
Proof.
  intros w f1 f2 f3.
  assert (H1 : trace (snd (count_messages_in_channel scripted 5 None
                             (Some 1000) w)) = trace w ++ [f1; f2; f3])
    by (vm_compute; reflexivity).
  assert (H2 : entries [f1; f2; f3] = 0%nat) by reflexivity.
  assert (H3 : [f1; f2; f3]
               = [f1] ++ Fetch (Request (Some 201) (Some 1000) 100)
                           (Envelope (Some (tokens_from 101 100))) :: [f3])
    by reflexivity.
  assert (H4 : [f3] <> []) by discriminate.
  repeat (split; [assumption|]).
  exact (batches_before_the_last scripted 5 None (Some 1000) w _ _ _ _ _
           H1 H2 H3 H4).
Defined.

Lemma next_cursor_comes_from_the_batch_witness :
  let w := start_world script_pages in
  let r1 := Request None (Some 1000) 100 in
  let b1 := Envelope (Some (tokens_from 201 100)) in
  let r2 := Request (Some 201) (Some 1000) 100 in
  let b2 := Envelope (Some (tokens_from 101 100)) in
  let f3 := Fetch (Request (Some 101) (Some 1000) 100)
              (Envelope (Some [50; 60])) in
  trace (snd (count_messages_in_channel scripted 5 None (Some 1000) w))
  = trace w ++ [Fetch r1 b1; Fetch r2 b2; f3]
  /\ entries [Fetch r1 b1; Fetch r2 b2; f3] = 0%nat
  /\ [Fetch r1 b1; Fetch r2 b2; f3] = [] ++ Fetch r1 b1 :: Fetch r2 b2 :: [f3]
  /\ exists c,
       In c (batch_of b1)
       /\ (forall t, In t (batch_of b1) ->
             in_range None (Some 1000) t = true -> c <= t)
       /\ req_start r2 = (if c =? 0 then None else Some c).
Proof.
  intros w r1 b1 r2 b2 f3.
  assert (H1 : trace (snd (count_messages_in_channel scripted 5 None
                             (Some 1000) w))
               = trace w ++ [Fetch r1 b1; Fetch r2 b2; f3])
    by (vm_compute; reflexivity).
  assert (H2 : entries [Fetch r1 b1; Fetch r2 b2; f3] = 0%nat)
    by reflexivity.
  assert (H3 : [Fetch r1 b1; Fetch r2 b2; f3]
               = [] ++ Fetch r1 b1 :: Fetch r2 b2 :: [f3]) by reflexivity.
  repeat (split; [assumption|]).
  exact (next_cursor_comes_from_the_batch scripted 5 None (Some 1000) w
           _ _ _ _ _ _ _ H1 H2 H3).
Defined.

Lemma count_is_messages_in_range_witness :
  let w := start_world script_pages in
  let run := count_messages_in_channel scripted 5 (Some 120) (Some 1000) w in
  run = (Returns 180, snd run)
  /\ trace (snd run) = trace w ++ trace (snd run)
  /\ entries (trace (snd run)) = 0%nat
  /\ length (messages_fetched (trace (snd run))) = 202%nat
  /\ 180%nat
     = length (filter (in_range (Some 120) (Some 1000))
                 (messages_fetched (trace (snd run)))).
Proof.
  intros w run.
  assert (H1 : run = (Returns 180, snd run)) by (vm_compute; reflexivity).
  assert (H2 : trace (snd run) = trace w ++ trace (snd run)) by reflexivity.
  assert (H3 : entries (trace (snd run)) = 0%nat) by (vm_compute; reflexivity).
  repeat (split; [assumption|]). split; [vm_compute; reflexivity|].
  exact (count_is_messages_in_range scripted 5 (Some 120) (Some 1000) w
           (snd run) 180 (trace (snd run)) H1 H2 H3).
Defined.

Lemma full_scan_counts_everything_witness :
  let w := start_world script_pages in
  let run := count_all_messages scripted 5 w in
  run = (Returns 202, snd run)
  /\ exists evs,
       trace (snd run) = trace w ++ Printed Counting_all :: evs
       /\ entries evs = 0%nat
       /\ 202%nat = length (messages_fetched evs).
Proof.
  intros w run.
  assert (H : run = (Returns 202, snd run)) by (vm_compute; reflexivity).
  split; [exact H|].
  exact (full_scan_counts_everything scripted 5 w (snd run) 202 H).
Defined.

Lemma bisection_without_messages_returns_zero_witness :
  let w := start_world [] in
  let w' := snd (search scripted search_ranges 1 10 (print Finding_range w)) in
  let resps := repeat (Envelope (Some [])) 5 in
  probed scripted 1 10 search_ranges (print Finding_range w) resps w'
  /\ Forall (fun r => is_miss r = true) resps
  /\ find_actual_start_near_end scripted 1 10 w = (Returns 0, w')
  /\ length resps = 5%nat.
Proof.
  intros w w' resps.
  assert (H1 : probed scripted 1 10 search_ranges (print Finding_range w)
                 resps w').
  { repeat (eapply probed_cons; [reflexivity|]). apply probed_nil. }
  assert (H2 : Forall (fun r => is_miss r = true) resps)
    by (repeat constructor).
  repeat (split; [assumption|]).
  exact (bisection_without_messages_returns_zero scripted 1 10 w w' resps
           H1 H2).
Defined.

Lemma batch_order_is_irrelevant_witness :
  let v := initial_vars (Some 100) in
  let raw := [201; 150; 160] in
  let raw' := [150; 160; 201] in
  Permutation raw raw'
  /\ loop_body (Some 100) (Some 200) v (Envelope (Some raw)) = Break 2
  /\ loop_body (Some 100) (Some 200) v (Envelope (Some raw))
     = loop_body (Some 100) (Some 200) v (Envelope (Some raw'))
  /\ start_ignored v raw = start_ignored v raw'
  /\ length (filter (match_criteria 100 200) raw)
     = length (filter (match_criteria 100 200) raw').
Proof.
  intros v raw raw'.
  assert (H : Permutation raw raw').
  { eapply perm_trans; [apply perm_swap|]. apply perm_skip, perm_swap. }
  split; [exact H|]. split; [reflexivity|].
  exact (batch_order_is_irrelevant (Some 100) (Some 200) v 100 200 raw raw' H).
Defined.


Lemma sub_procedure_only_after_ignored_start_witness :
  let w := start_world script_bisection_error in
  let f1 := Fetch (Request (Some 1) (Some 10) 100)
              (Envelope (Some [2 * 10 ^ 14])) in
  let rest := [Fetch (Request (Some 1) (Some 10) 100) Envelope_error;
               Fetch (Request (Some 1) (Some 10) 100)
                 (Envelope (Some [5; 11]))] in
  let evs := f1 :: Printed Finding_range :: rest in
  trace (snd (count_messages_in_channel scripted 5 (Some 1) (Some 10) w))
  = trace w ++ evs
  /\ evs = [f1] ++ Printed Finding_range :: rest
  /\ exists s' e' raw,
       Some 1 = Some s' /\ s' <> 0 /\ Some 10 = Some e' /\ e' <> 0
       /\ [f1]
          = [Fetch (Request (Some s') (Some e') 100) (Envelope (Some raw))]
       /\ raw <> []
       /\ s' < py_min raw - 10 ^ 14
       /\ Finding_range = (if e' >? py_max raw + 10 ^ 15
                           then Counting_all else Finding_range)
       /\ forall line', ~ In (Printed line') rest.
Proof.
  intros w f1 rest evs.
  assert (H1 : trace (snd (count_messages_in_channel scripted 5 (Some 1)
                             (Some 10) w)) = trace w ++ evs)
    by (vm_compute; reflexivity).
  assert (H2 : evs = [f1] ++ Printed Finding_range :: rest) by reflexivity.
  repeat (split; [assumption|]).
  exact (sub_procedure_only_after_ignored_start scripted 5 (Some 1) (Some 10)
           w evs [f1] rest Finding_range H1 H2).
Defined.

Lemma inverted_range_counts_nothing_witness :
  let w := start_world script_example in
  let run := count_messages_in_channel scripted 5 (Some 200) (Some 100) w in
  200 <> 0 /\ 100 <> 0 /\ 200 >= 100
  /\ run = (Returns 0, snd run)
  /\ trace (snd run) = trace w ++ trace (snd run)
  /\ ~ In (Printed Counting_all) (trace (snd run))
  /\ 0%nat = 0%nat.
Proof.
  intros w run.
  assert (H1 : 200 <> 0) by lia.
  assert (H2 : 100 <> 0) by lia.
  assert (H3 : 200 >= 100) by lia.
  assert (H4 : run = (Returns 0, snd run)) by (vm_compute; reflexivity).
  assert (H5 : trace (snd run) = trace w ++ trace (snd run)) by reflexivity.
  assert (H6 : ~ In (Printed Counting_all) (trace (snd run))).
  { vm_compute. intros [H|[]]. discriminate H. }
  repeat (split; [assumption|]).
  exact (inverted_range_counts_nothing scripted 5 200 100 w (snd run) 0
           (trace (snd run)) H1 H2 H3 H4 H5 H6).
Defined.
